(** * ImageLab: the pipeline executor and its code-generation twin

    A shallow embedding of the workbench page of the ImageLab repository
    (the component [ImagePreprocessingWorkbench]): the operation catalog,
    the pipeline editing callbacks, [applyTransformPipeline] (the executor
    that drives OpenCV.js) and [generatePythonCode] (the code synthesizer).

    JavaScript numbers are IEEE binary64 values ([PrimFloat.float]); the
    OpenCV.js objects the executor creates are tracked by a ledger of
    handles; the numerical primitives of OpenCV.js that the page only calls
    are a field of the host record. *)

From Stdlib Require Import ZArith Zpower List Bool Lia Floats String Ascii.
From stdpp Require Import base option list gmap strings pretty.

Set Warnings "-inexact-float".
#[local] Open Scope Z_scope.

(** ** JavaScript numbers *)

Module JS.

Abbreviation Number := float.

(** The Number with the mathematical value of an integer (exact below 2^53,
    rounded to nearest-even above). *)
Definition of_Z (z : Z) : Number :=
  SF2Prim (binary_normalize prec emax z 0 false).

Definition is_finite_nz (x : Number) : bool :=
  match Prim2SF x with S754_finite _ _ _ => true | _ => false end.

(** Largest integer below a finite Number (0 on zeros, NaN and infinities). *)
Definition floorZ (x : Number) : Z :=
  match Prim2SF x with
  | S754_finite s m e => Z.shiftl (if s then Zneg m else Zpos m) e
  | _ => 0
  end.

(** Integer part of a finite Number, rounding toward zero. *)
Definition truncZ (x : Number) : Z :=
  match Prim2SF x with
  | S754_finite s m e =>
      let a := Z.shiftl (Zpos m) e in if s then - a else a
  | _ => 0
  end.

(** [Math.floor]. *)
Definition Math_floor (x : Number) : Number :=
  if is_finite_nz x then of_Z (floorZ x) else x.

(** [Math.round]: nearest integer, ties toward +Infinity. *)
Definition Math_round (x : Number) : Number :=
  match Prim2SF x with
  | S754_finite s m e =>
      let r := Z.shiftl (Z.shiftl (if s then Zneg m else Zpos m) (e + 1) + 1) (-1) in
      if (r =? 0) && s then neg_zero else of_Z r
  | _ => x
  end.

(** [Math.max] on two arguments. *)
Definition Math_max (a b : Number) : Number :=
  if is_nan a || is_nan b then nan
  else if (a <? b)%float then b
  else if (b <? a)%float then a
  else if get_sign a then b else a.

(** ToBoolean on a Number: 0, -0 and NaN are falsy. *)
Definition truthy (x : Number) : bool := negb (is_zero x || is_nan x).

(** [x || d] where [x] is a possibly missing Number. *)
Definition or_else (x : option Number) (d : Number) : Number :=
  match x with
  | Some v => if truthy v then v else d
  | None => d
  end.

(** [x ?? d]. *)
Definition nullish (x : option Number) (d : Number) : Number :=
  match x with Some v => v | None => d end.

(** ToInt32, the conversion applied by the bitwise operators. *)
Definition ToInt32 (x : Number) : Z :=
  (truncZ x + 2 ^ 31) mod 2 ^ 32 - 2 ^ 31.

(** ToUint8, the conversion applied by a store into a [Uint8Array]. *)
Definition ToUint8 (x : Number) : Z := truncZ x mod 256.

(** [Math.pow] on a non-negative finite base, the only use the page makes
    of it.  The cases fixed by ECMAScript (Number::exponentiate) are written
    out; a power with exponent 1 is exactly the base; every other value is
    the engine's approximation [approx]. *)
Definition Math_pow (approx : Number -> Number -> Number)
    (base exponent : Number) : Number :=
  if is_nan exponent then nan
  else if is_zero exponent then 1%float
  else if is_nan base then nan
  else if is_zero base then
    (if (0 <? exponent)%float then 0%float else infinity)
  else if (exponent =? 1)%float then base
  else approx base exponent.

End JS.

Import JS.
#[local] Open Scope string_scope.
#[local] Open Scope list_scope.
#[local] Open Scope Z_scope.

(** Strict equality of two strings. *)
Notation "a === b" := (String.eqb a b) (at level 70, no associativity).

(** ** The operation catalog and the pipeline data model *)

(** A parameter value: a number, a string ([flipDirection], [text],
    [textColor]) or a list of points. *)
Inductive Value :=
| VNum (n : Number)
| VStr (s : string)
| VPoints (pts : list (list Number)).

(** [TransformParams]: an object with optional keys, read by key. *)
Abbreviation TransformParams := (gmap string Value).

(** [params.key] for a key the interface types as [number]. *)
Definition num (p : TransformParams) (key : string) : option Number :=
  match p !! key with
  | Some (VNum n) => Some n
  | _ => None
  end.

(** [params.key] for a key the interface types as a string. *)
Definition str (p : TransformParams) (key : string) : option string :=
  match p !! key with
  | Some (VStr s) => Some s
  | _ => None
  end.

Record Operation := {
  value : string;
  label : string;
  op_params : list string;
}.

Record Category := {
  category : string;
  operations : list Operation;
}.

Definition op (v l : string) (ps : list string) : Operation :=
  {| value := v; label := l; op_params := ps |}.

Definition TRANSFORM_CATEGORIES : list Category := [
  {| category := "Basic Operations";
     operations := [
       op "grayscale" "Grayscale" [];
       op "resize" "Resize" ["resizeWidth"; "resizeHeight"];
       op "crop" "Crop" ["cropX"; "cropY"; "cropWidth"; "cropHeight"];
       op "flip" "Flip" ["flipDirection"];
       op "rotate" "Rotate" ["rotateAngle"] ] |};
  {| category := "Color Spaces";
     operations := [
       op "hsv" "Convert to HSV" [];
       op "lab" "Convert to LAB" [];
       op "ycrcb" "Convert to YCrCb" [];
       op "hed" "Convert to HED" [];
       op "cmyk" "Convert to CMYK" [] ] |};
  {| category := "Point Operations";
     operations := [
       op "brightness" "Brightness Adjustment" ["brightness"];
       op "contrast" "Contrast Adjustment" ["contrast"];
       op "gamma" "Gamma Correction" ["gamma"];
       op "hist_eq" "Histogram Equalization" [] ] |};
  {| category := "Blurring";
     operations := [
       op "gaussian_blur" "Gaussian Blur" ["blur"];
       op "median_blur" "Median Blur" ["blur"];
       op "bilateral" "Bilateral Filter"
          ["bilateralDiameter"; "bilateralSigmaColor"; "bilateralSigmaSpace"];
       op "nl_means" "Non-local Means Denoising" ["nlStrength"] ] |};
  {| category := "Edge Detection";
     operations := [
       op "canny" "Canny Edge" ["cannyThreshold1"; "cannyThreshold2"];
       op "sobel" "Sobel Edge" ["sobelDx"; "sobelDy"];
       op "laplacian" "Laplacian Edge" [] ] |};
  {| category := "Thresholding";
     operations := [
       op "simple_thresh" "Simple Threshold" ["threshold"];
       op "adaptive_thresh" "Adaptive Threshold" ["adaptiveBlockSize"; "adaptiveC"];
       op "otsu" "Otsu Threshold" [] ] |};
  {| category := "Morphological";
     operations := [
       op "erode" "Erosion" ["morphKernelSize"];
       op "dilate" "Dilation" ["morphKernelSize"];
       op "open" "Opening" ["morphKernelSize"];
       op "close" "Closing" ["morphKernelSize"] ] |};
  {| category := "Geometric";
     operations := [
       op "translate" "Translation" ["translateX"; "translateY"];
       op "perspective" "Perspective Transform" ["perspectivePoints"];
       op "affine" "Affine Transform" ["affinePoints"] ] |};
  {| category := "Blending & Arithmetic";
     operations := [
       op "add_weighted" "AddWeighted Blend" ["blendAlpha"; "blendBeta"] ] |};
  {| category := "Contours & Annotation";
     operations := [
       op "find_contours" "Find Contours" [];
       op "draw_text" "Draw Text"
          ["text"; "textX"; "textY"; "textFontSize"; "textColor"];
       op "feature_detect" "Feature Detection" [] ] |}
].

Definition DEFAULT_PARAMS : TransformParams :=
  list_to_map [
    ("blur", VNum 5);
    ("threshold", VNum 128);
    ("contrast", VNum 120);
    ("brightness", VNum 110);
    ("sharpen", VNum 1);
    ("cropX", VNum 10);
    ("cropY", VNum 10);
    ("cropWidth", VNum 80);
    ("cropHeight", VNum 80) ].

Record ImageState := {
  original : option string;
  processed : option string;
  intermediateSteps : list string;
}.

Record TransformStep := {
  id : string;
  type : string;
  params : TransformParams;
  name : string;
}.

(** An OpenCV.js matrix as the page sees it: [rows], [cols], [type()] and
    the pixel data. *)
Record Mat := {
  rows : Z;
  cols : Z;
  mat_type : Z;
  data : list (list (list Z));  (* rows of pixels, a pixel is its channel values *)
}.

(** The state of the component [ImagePreprocessingWorkbench] that the
    pipeline callbacks read and write.  [cv] says whether the OpenCV.js
    module object delivered by [useOpenCv] is there. *)
Record Workbench := {
  images : ImageState;
  transformPipeline : list TransformStep;
  selectedCategory : string;
  selectedOperation : string;
  transformParams : TransformParams;
  originalMat : option Mat;
  cv : bool;
}.

Definition setImages (f : ImageState -> ImageState) (w : Workbench) : Workbench :=
  {| images := f (images w);
     transformPipeline := transformPipeline w;
     selectedCategory := selectedCategory w;
     selectedOperation := selectedOperation w;
     transformParams := transformParams w;
     originalMat := originalMat w;
     cv := cv w |}.

Definition setTransformPipeline (f : list TransformStep -> list TransformStep)
    (w : Workbench) : Workbench :=
  {| images := images w;
     transformPipeline := f (transformPipeline w);
     selectedCategory := selectedCategory w;
     selectedOperation := selectedOperation w;
     transformParams := transformParams w;
     originalMat := originalMat w;
     cv := cv w |}.

Definition setSelectedOperation (v : string) (w : Workbench) : Workbench :=
  {| images := images w;
     transformPipeline := transformPipeline w;
     selectedCategory := selectedCategory w;
     selectedOperation := v;
     transformParams := transformParams w;
     originalMat := originalMat w;
     cv := cv w |}.

Definition setTransformParams (f : TransformParams -> TransformParams)
    (w : Workbench) : Workbench :=
  {| images := images w;
     transformPipeline := transformPipeline w;
     selectedCategory := selectedCategory w;
     selectedOperation := selectedOperation w;
     transformParams := f (transformParams w);
     originalMat := originalMat w;
     cv := cv w |}.

Definition setOriginalMat (m : Mat) (w : Workbench) : Workbench :=
  {| images := images w;
     transformPipeline := transformPipeline w;
     selectedCategory := selectedCategory w;
     selectedOperation := selectedOperation w;
     transformParams := transformParams w;
     originalMat := Some m;
     cv := cv w |}.

Definition currentCategory (w : Workbench) : option Category :=
  List.find (fun cat => category cat === selectedCategory w) TRANSFORM_CATEGORIES.

Definition currentOperation (w : Workbench) : option Operation :=
  match currentCategory w with
  | Some cat => List.find (fun o => value o === selectedOperation w) (operations cat)
  | None => None
  end.

(** ** Editing the pipeline *)

(** [addTransformToPipeline]; [fresh] is the identifier [generateId] draws. *)
Definition addTransformToPipeline (fresh : string) (w : Workbench) : Workbench :=
  if selectedOperation w === EmptyString then w
  else
    let newStep :=
      {| id := fresh;
         type := selectedOperation w;
         params := DEFAULT_PARAMS;
         name := match currentOperation w with
                 | Some o => if label o === EmptyString then selectedOperation w else label o
                 | None => selectedOperation w
                 end |} in
    setSelectedOperation EmptyString
      (setTransformPipeline (fun prev => prev ++ [newStep]) w).

(** The click handler of the button "Add to Pipeline", rendered only while
    [currentOperation] is there. *)
Definition onClickAddToPipeline (fresh : string) (w : Workbench) : Workbench :=
  match currentOperation w with
  | None => w
  | Some o =>
      if selectedOperation w === EmptyString then w
      else
        let newStep :=
          {| id := fresh;
             type := selectedOperation w;
             params := DEFAULT_PARAMS;
             name := label o |} in
        setSelectedOperation EmptyString
          (setTransformPipeline (fun prev => prev ++ [newStep]) w)
  end.

(** The change handler of the operation drop-down: the controls start from
    the defaults of the operation's keys. *)
Definition onOperationChange (v : string) (w : Workbench) : Workbench :=
  let w1 := setSelectedOperation v w in
  match currentCategory w with
  | Some cat =>
      match List.find (fun o => value o === v) (operations cat) with
      | Some o =>
          let defaults : TransformParams :=
            fold_left (fun (d : TransformParams) param =>
                         <[param := match DEFAULT_PARAMS !! param with
                                    | Some x => x
                                    | None => VNum 0
                                    end]> d)
                      (op_params o) ∅ in
          setTransformParams (fun _ => defaults) w1
      | None => w1
      end
  | None => w1
  end.

(** The change handler of a slider. *)
Definition onSliderChange (param : string) (v : Number) (w : Workbench) : Workbench :=
  setTransformParams (fun prev => <[param := VNum v]> prev) w.

Definition removeTransformFromPipeline (i : string) (w : Workbench) : Workbench :=
  setTransformPipeline (List.filter (fun step => negb (id step === i))) w.

(** ** The capability provider (OpenCV.js) *)

(** What a call returns: a value, or the value thrown. *)
Inductive Result (A : Type) :=
| Ok (a : A)
| Throw (err : string).
Arguments Ok {A} a.
Arguments Throw {A} err.

Module Cv.

(** Type codes: depth in the low three bits, channels - 1 above them. *)
Definition CV_8U : Z := 0.
Definition CV_16S : Z := 3.
Definition CV_64F : Z := 6.
Definition CV_MAKETYPE (depth cn : Z) : Z := depth + Z.shiftl (cn - 1) 3.
Definition CV_8UC1 : Z := CV_MAKETYPE CV_8U 1.
Definition CV_8UC4 : Z := CV_MAKETYPE CV_8U 4.
Definition depth (m : Mat) : Z := Z.land (mat_type m) 7.
Definition channels (m : Mat) : Z := Z.shiftr (mat_type m) 3 + 1.

Definition ROTATE_90_CLOCKWISE : Z := 0.
Definition ROTATE_180 : Z := 1.
Definition ROTATE_90_COUNTERCLOCKWISE : Z := 2.
Definition MORPH_OPEN : Z := 2.
Definition MORPH_CLOSE : Z := 3.

(** [new cv.Mat()]. *)
Definition empty : Mat := {| rows := 0; cols := 0; mat_type := 0; data := [] |}.

(** [new cv.Mat(rows, cols, type)], zero-filled. *)
Definition zeros (r c t : Z) : Mat :=
  {| rows := r; cols := c; mat_type := t;
     data := repeat (repeat (repeat 0 (Z.to_nat (Z.shiftr t 3 + 1))) (Z.to_nat c))
                    (Z.to_nat r) |}.

Definition saturate_u8 (v : Z) : Z := Z.max 0 (Z.min 255 v).

(** The same function on every pixel; the result has type [t]. *)
Definition map_pixels (f : list Z -> list Z) (t : Z) (m : Mat) : Mat :=
  {| rows := rows m; cols := cols m; mat_type := t;
     data := map (map f) (data m) |}.

(** [m.clone()]. *)
Definition clone (m : Mat) : Mat := m.

(** [m.roi(new cv.Rect(x, y, w, h))]: the fields of the rectangle are stored
    as C integers; a rectangle that leaves the matrix is refused. *)
Definition roi (m : Mat) (x y w h : Number) : Result Mat :=
  let x := ToInt32 x in
  let y := ToInt32 y in
  let w := ToInt32 w in
  let h := ToInt32 h in
  if (0 <=? x) && (0 <=? w) && (x + w <=? cols m)
     && (0 <=? y) && (0 <=? h) && (y + h <=? rows m)
  then Ok {| rows := h; cols := w; mat_type := mat_type m;
             data := map (fun row => take (Z.to_nat w) (drop (Z.to_nat x) row))
                         (take (Z.to_nat h) (drop (Z.to_nat y) (data m))) |}
  else Throw "roi: rectangle outside the matrix".

(** [cv.cvtColor(src, dst, cv.COLOR_RGBA2GRAY)]: one 8-bit luminance per
    pixel; [luma] is the provider's weighting of R, G and B. *)
Definition cvtColor_RGBA2GRAY (luma : Z -> Z -> Z -> Z) (src : Mat) : Result Mat :=
  if (channels src =? 3) || (channels src =? 4)
  then Ok (map_pixels
             (fun px => [saturate_u8 (luma (nth 0 px 0) (nth 1 px 0) (nth 2 px 0))])
             (CV_MAKETYPE (depth src) 1) src)
  else Throw "cvtColor: invalid number of channels in input image".

(** [cv.cvtColor(src, dst, cv.COLOR_GRAY2RGBA)]: the gray value three times
    and an opaque alpha. *)
Definition cvtColor_GRAY2RGBA (src : Mat) : Result Mat :=
  if channels src =? 1
  then Ok (map_pixels (fun px => let v := nth 0 px 0 in [v; v; v; 255])
                      (CV_MAKETYPE (depth src) 4) src)
  else Throw "cvtColor: invalid number of channels in input image".

(** [cv.threshold(src, dst, thresh, maxval, cv.THRESH_BINARY)] on 8-bit
    data: [maxval] where the value exceeds [thresh], 0 elsewhere. *)
Definition threshold_binary (thresh maxval : Number) (src : Mat) : Mat :=
  map_pixels
    (map (fun v => if floorZ thresh <? v
                   then saturate_u8 (truncZ (Math_round maxval)) else 0))
    (mat_type src) src.

(** [cv.split(m, planes)]: one single-channel matrix per channel. *)
Definition split (m : Mat) : list Mat :=
  map (fun c => map_pixels (fun px => [nth c px 0]) (CV_MAKETYPE (depth m) 1) m)
      (seq 0 (Z.to_nat (channels m))).

(** [cv.merge(planes, dst)]: the pixel at a position gathers the values the
    planes have there; the size is that of the first plane. *)
Definition merge (planes : list Mat) : Mat :=
  match planes with
  | [] => empty
  | p0 :: _ =>
      {| rows := rows p0; cols := cols p0;
         mat_type := CV_MAKETYPE (depth p0) (Z.of_nat (length planes));
         data :=
           imap (fun r row =>
                   imap (fun c _ =>
                           map (fun p => nth 0 (nth c (nth r (data p) []) []) 0)
                               planes)
                        row)
                (data p0) |}
  end.

(** [cv.LUT(src, lut, dst)] with a 256-entry table. *)
Definition LUT (table : list Z) (src : Mat) : Mat :=
  map_pixels (map (fun v => nth (Z.to_nat v) table 0)) (mat_type src) src.

Inductive ColorConversion :=
| COLOR_RGBA2HSV | COLOR_HSV2RGBA
| COLOR_RGBA2Lab | COLOR_Lab2RGBA
| COLOR_RGBA2YCrCb | COLOR_YCrCb2RGBA
| COLOR_RGBA2RGB | COLOR_RGB2RGBA.

(** The 2x3 matrix handed to [warpAffine]. *)
Inductive Affine :=
| RotationMatrix2D (cx cy angle scale : Number)
| FromArray (a : list Number).

(** The numerical primitives the page only calls; what they compute is the
    provider's. *)
Inductive Prim :=
| resize (width height : Number)
| flip (flipCode : Z)
| rotate (rotateCode : Z)
| warpAffine (M : Affine) (width height : Z)
| cvtColor (code : ColorConversion)
| convertTo (alpha beta : Number)
| equalizeHist
| GaussianBlur (ksize : Z)
| medianBlur (ksize : Z)
| bilateralFilter (d sigmaColor sigmaSpace : Number)
| Canny (threshold1 threshold2 : Number)
| Sobel (dx dy : Number)
| Laplacian
| convertScaleAbs
| adaptiveThreshold (blockSize C : Number)
| threshold_otsu
| erode (ksize : Number)
| dilate (ksize : Number)
| morphologyEx (morph : Z) (ksize : Number)
| putText (text : string) (x y fontScale : Number).

End Cv.

(** What the page takes from its surroundings: the OpenCV.js primitives, the
    engine's [Math.pow] and number formatting, and the two helpers of
    [lib/utils]. *)
Record Host := {
  cv_luma : Z -> Z -> Z -> Z;
  cv_call : Cv.Prim -> Mat -> Result Mat;
  pow_approx : Number -> Number -> Number;
  Number_toString : Number -> string;
  matToDataUrl : Mat -> string;
  dataUrlToMat : string -> Mat;
}.

(** ** The ledger of OpenCV.js objects

    Every [cv.Mat] or [cv.MatVector] the executor creates ([new], [clone],
    [roi], [getRotationMatrix2D], [matFromArray], [getStructuringElement])
    gets a fresh handle.  [live] are the handles created and not yet deleted,
    [peak] the largest number of them live at one time, [deleted] the calls
    of [delete()] in order.  The planes a [MatVector] hands out with [get]
    belong to the vector and have no handle of their own. *)
Record Ledger := {
  next : nat;
  live : list nat;
  peak : nat;
  deleted : list nat;
}.

Definition empty_ledger : Ledger :=
  {| next := 0; live := []; peak := 0; deleted := [] |}.

Definition alloc (L : Ledger) : nat * Ledger :=
  (next L,
   {| next := S (next L);
      live := next L :: live L;
      peak := Nat.max (peak L) (S (length (live L)));
      deleted := deleted L |}).

Definition release (h : nat) (L : Ledger) : Ledger :=
  {| next := next L;
     live := List.filter (fun x => negb (Nat.eqb x h)) (live L);
     peak := peak L;
     deleted := deleted L ++ [h] |}.

(** ** The executor *)

(** A JavaScript variable bound to an OpenCV.js object: its handle and what
    the object holds. *)
Record Buf := {
  handle : nat;
  img : Mat;
}.

(** The variables of one run of [applyTransformPipeline], the provider's
    ledger and the console. *)
Record Run := {
  mat : Buf;
  matsToRelease : list nat;
  objs : Ledger;
  logged : list string;  (* what the run wrote with console.error *)
}.

(** A statement: from the variables to a value or a thrown error, and the
    variables as they are then. *)
Definition M (A : Type) : Type := Run -> Result A * Run.

#[export] Instance M_ret : MRet M := fun A a r => (Ok a, r).
#[export] Instance M_bind : MBind M := fun A B f m r =>
  match m r with
  | (Ok a, r') => f a r'
  | (Throw e, r') => (Throw e, r')
  end.

Definition throw {A} (e : string) : M A := fun r => (Throw e, r).

(** A provider call, which may throw. *)
Definition lift {A} (x : Result A) : M A := fun r => (x, r).

Definition with_objs (f : Ledger -> Ledger) (r : Run) : Run :=
  {| mat := mat r; matsToRelease := matsToRelease r; objs := f (objs r);
     logged := logged r |}.

(** [let x = new cv.Mat()] and the other ways an object is created; [content]
    is what the new object holds. *)
Definition new (content : Mat) : M Buf := fun r =>
  let '(h, L) := alloc (objs r) in
  (Ok {| handle := h; img := content |}, with_objs (fun _ => L) r).

(** [x.delete()]. *)
Definition delete (h : nat) : M unit := fun r =>
  (Ok tt, with_objs (release h) r).

Definition get_mat : M Buf := fun r => (Ok (mat r), r).

(** [mat = x]. *)
Definition set_mat (b : Buf) : M unit := fun r =>
  (Ok tt, {| mat := b; matsToRelease := matsToRelease r; objs := objs r;
             logged := logged r |}).

(** A primitive wrote its result into the object [mat] is bound to. *)
Definition write_mat (content : Mat) : M unit := fun r =>
  (Ok tt, {| mat := {| handle := handle (mat r); img := content |};
             matsToRelease := matsToRelease r; objs := objs r;
             logged := logged r |}).

(** [matsToRelease.push(x)]. *)
Definition push (b : Buf) : M unit := fun r =>
  (Ok tt, {| mat := mat r; matsToRelease := matsToRelease r ++ [handle b];
             objs := objs r; logged := logged r |}).

(** [console.error(msg)]. *)
Definition console_error (msg : string) : M unit := fun r =>
  (Ok tt, {| mat := mat r; matsToRelease := matsToRelease r; objs := objs r;
             logged := logged r ++ [msg] |}).

(** [try { body } catch (err) { handler } finally { fin }]. *)
Definition try_catch_finally {A} (body : M A) (handler : string -> M A)
    (fin : M unit) : M A :=
  fun r =>
    let '(x, r') :=
      match body r with
      | (Ok a, r') => (Ok a, r')
      | (Throw err, r') => handler err r'
      end in
    match fin r' with
    | (Ok _, r'') => (x, r'')
    | (Throw e, r'') => (Throw e, r'')
    end.

(** The kernel size the executor hands to the blur primitives: [ksize|1]
    with [ksize = step.params.blur || 5]. *)
Definition blur_ksize (p : TransformParams) : Z :=
  Z.lor (ToInt32 (or_else (num p "blur") 5)) 1.

(** The linear transform of a brightness or contrast step. *)
Definition linear_alpha (p : TransformParams) : Number :=
  (nullish (num p "contrast") 100 / 100)%float.

Definition linear_beta (p : TransformParams) : Number :=
  ((nullish (num p "brightness") 100 - 100) * 2.55)%float.

(** The crop rectangle, in pixels of a matrix with [c] columns and [r] rows. *)
Definition crop_x (p : TransformParams) (c : Z) : Number :=
  Math_max 0 (Math_floor (nullish (num p "cropX") 0 / 100 * of_Z c)).
Definition crop_y (p : TransformParams) (r : Z) : Number :=
  Math_max 0 (Math_floor (nullish (num p "cropY") 0 / 100 * of_Z r)).
Definition crop_w (p : TransformParams) (c : Z) : Number :=
  Math_max 1 (Math_floor (nullish (num p "cropWidth") 100 / 100 * of_Z c)).
Definition crop_h (p : TransformParams) (r : Z) : Number :=
  Math_max 1 (Math_floor (nullish (num p "cropHeight") 100 / 100 * of_Z r)).

(** The table of a gamma step: entry [i] is [Math.pow(i / 255, gamma) * 255]
    stored into a [Uint8Array]. *)
Definition gamma_lut (H : Host) (gamma : Number) : list Z :=
  map (fun i => ToUint8 (Math_pow (pow_approx H) (of_Z (Z.of_nat i) / 255) gamma * 255))
      (seq 0 256).

Definition call (H : Host) (p : Cv.Prim) (src : Mat) : M Mat :=
  lift (cv_call H p src).

Definition rebind (b : Buf) (content : Mat) : Buf :=
  {| handle := handle b; img := content |}.

(** The body of the inner [try] of [applyTransformPipeline]: what one step
    does to the variables. *)
Definition step_body (H : Host) (step : TransformStep) : M unit :=
  let t := type step in
  let p := params step in
  (* Basic Operations *)
  if t === "grayscale" then
    gray ← new Cv.empty;
    m ← get_mat;
    g ← lift (Cv.cvtColor_RGBA2GRAY (cv_luma H) (img m));
    o ← lift (Cv.cvtColor_GRAY2RGBA g);
    write_mat o;;
    delete (handle gray)
  else if t === "resize" then
    resized ← new Cv.empty;
    m ← get_mat;
    let width := or_else (num p "resizeWidth") (of_Z (cols (img m))) in
    let height := or_else (num p "resizeHeight") (of_Z (rows (img m))) in
    o ← call H (Cv.resize width height) (img m);
    delete (handle m);;
    set_mat (rebind resized o);;
    push resized
  else if t === "crop" then
    m ← get_mat;
    let x := crop_x p (cols (img m)) in
    let y := crop_y p (rows (img m)) in
    let w := crop_w p (cols (img m)) in
    let h := crop_h p (rows (img m)) in
    o ← lift (Cv.roi (img m) x y w h);
    roi ← new o;
    delete (handle m);;
    set_mat roi;;
    push roi
  else if t === "flip" then
    flipped ← new Cv.empty;
    m ← get_mat;
    let flipCode :=
      match str p "flipDirection" with
      | Some d => if d === "horizontal" then 1 else 0
      | None => 0
      end in
    o ← call H (Cv.flip flipCode) (img m);
    delete (handle m);;
    set_mat (rebind flipped o);;
    push flipped
  else if t === "rotate" then
    rotated ← new Cv.empty;
    m ← get_mat;
    let angle := or_else (num p "rotateAngle") 0 in
    o ← (if (angle =? 90)%float then
           call H (Cv.rotate Cv.ROTATE_90_CLOCKWISE) (img m)
         else if (angle =? 180)%float then
           call H (Cv.rotate Cv.ROTATE_180) (img m)
         else if (angle =? 270)%float then
           call H (Cv.rotate Cv.ROTATE_90_COUNTERCLOCKWISE) (img m)
         else
           (* Arbitrary angle: use warpAffine *)
           let cx := (of_Z (cols (img m)) / 2)%float in
           let cy := (of_Z (rows (img m)) / 2)%float in
           M ← new (Cv.zeros 2 3 Cv.CV_64F);
           o ← call H (Cv.warpAffine (Cv.RotationMatrix2D cx cy angle 1)
                                     (cols (img m)) (rows (img m))) (img m);
           delete (handle M);;
           mret o);
    delete (handle m);;
    set_mat (rebind rotated o);;
    push rotated
  (* Color Spaces *)
  else if t === "hsv" then
    out ← new Cv.empty;
    m ← get_mat;
    o ← call H (Cv.cvtColor Cv.COLOR_RGBA2HSV) (img m);
    o' ← call H (Cv.cvtColor Cv.COLOR_HSV2RGBA) o;
    write_mat o';;
    delete (handle out)
  else if t === "lab" then
    out ← new Cv.empty;
    m ← get_mat;
    o ← call H (Cv.cvtColor Cv.COLOR_RGBA2Lab) (img m);
    o' ← call H (Cv.cvtColor Cv.COLOR_Lab2RGBA) o;
    write_mat o';;
    delete (handle out)
  else if t === "ycrcb" then
    out ← new Cv.empty;
    m ← get_mat;
    o ← call H (Cv.cvtColor Cv.COLOR_RGBA2YCrCb) (img m);
    o' ← call H (Cv.cvtColor Cv.COLOR_YCrCb2RGBA) o;
    write_mat o';;
    delete (handle out)
  else if (t === "hed") || (t === "cmyk") then
    (* Not natively supported in OpenCV.js; skip *)
    mret tt
  (* Point Operations *)
  else if (t === "contrast") || (t === "brightness") then
    m ← get_mat;
    o ← call H (Cv.convertTo (linear_alpha p) (linear_beta p)) (img m);
    write_mat o
  else if t === "gamma" then
    let gamma := nullish (num p "gamma") 1 in
    lut ← new (Cv.zeros 1 256 Cv.CV_8UC1);
    let table := gamma_lut H gamma in
    channels ← new Cv.empty;
    m ← get_mat;
    let planes := map (Cv.LUT table) (Cv.split (img m)) in
    write_mat (Cv.merge planes);;
    delete (handle lut);;
    delete (handle channels)
  else if t === "hist_eq" then
    ycrcb ← new Cv.empty;
    m ← get_mat;
    y ← call H (Cv.cvtColor Cv.COLOR_RGBA2YCrCb) (img m);
    channels ← new Cv.empty;
    planes ← match Cv.split y with
             | p0 :: ps => e ← call H Cv.equalizeHist p0; mret (e :: ps)
             | [] => throw "equalizeHist: no channel"
             end;
    o ← call H (Cv.cvtColor Cv.COLOR_YCrCb2RGBA) (Cv.merge planes);
    write_mat o;;
    delete (handle ycrcb);;
    delete (handle channels)
  (* Blurring *)
  else if t === "gaussian_blur" then
    out ← new Cv.empty;
    m ← get_mat;
    o ← call H (Cv.GaussianBlur (blur_ksize p)) (img m);
    delete (handle m);;
    set_mat (rebind out o);;
    push out
  else if t === "median_blur" then
    out ← new Cv.empty;
    m ← get_mat;
    o ← call H (Cv.medianBlur (blur_ksize p)) (img m);
    delete (handle m);;
    set_mat (rebind out o);;
    push out
  else if t === "bilateral" then
    out ← new Cv.empty;
    m ← get_mat;
    (* Convert RGBA to RGB if needed *)
    converted ← (if mat_type (img m) =? Cv.CV_8UC4 then
                   c ← new Cv.empty;
                   rgb ← call H (Cv.cvtColor Cv.COLOR_RGBA2RGB) (img m);
                   mret (Some (rebind c rgb))
                 else mret None);
    let input := match converted with Some c => img c | None => img m end in
    (* Clamp and validate parameters *)
    let d := Math_max 1 (Math_round (or_else (num p "bilateralDiameter") 9)) in
    let sigmaColor := Math_max 1 (or_else (num p "bilateralSigmaColor") 75) in
    let sigmaSpace := Math_max 1 (or_else (num p "bilateralSigmaSpace") 75) in
    try_catch_finally
      (o ← call H (Cv.bilateralFilter d sigmaColor sigmaSpace) input;
       (* Convert back to RGBA if original was RGBA *)
       if mat_type (img m) =? Cv.CV_8UC4 then
         o' ← call H (Cv.cvtColor Cv.COLOR_RGB2RGBA) o;
         write_mat o'
       else write_mat o)
      (fun err =>
         console_error ("Bilateral filter error: " +:+ err);;
         throw "Bilateral filter failed. Please check parameter values.")
      (delete (handle out);;
       match converted with
       | Some c => delete (handle c)
       | None => mret tt
       end)
  else if t === "nl_means" then
    (* Not natively supported in OpenCV.js; skip *)
    mret tt
  (* Edge Detection *)
  else if t === "canny" then
    out ← new Cv.empty;
    m ← get_mat;
    o ← call H (Cv.Canny (or_else (num p "cannyThreshold1") 50)
                         (or_else (num p "cannyThreshold2") 150)) (img m);
    o' ← lift (Cv.cvtColor_GRAY2RGBA o);
    write_mat o';;
    delete (handle out)
  else if t === "sobel" then
    gray ← new Cv.empty;
    m ← get_mat;
    g ← lift (Cv.cvtColor_RGBA2GRAY (cv_luma H) (img m));
    grad ← new Cv.empty;
    gr ← call H (Cv.Sobel (or_else (num p "sobelDx") 1)
                          (or_else (num p "sobelDy") 0)) g;
    absGrad ← new Cv.empty;
    ag ← call H Cv.convertScaleAbs gr;
    o ← lift (Cv.cvtColor_GRAY2RGBA ag);
    write_mat o;;
    delete (handle gray);;
    delete (handle grad);;
    delete (handle absGrad)
  else if t === "laplacian" then
    gray ← new Cv.empty;
    m ← get_mat;
    g ← lift (Cv.cvtColor_RGBA2GRAY (cv_luma H) (img m));
    lap ← new Cv.empty;
    l ← call H Cv.Laplacian g;
    absLap ← new Cv.empty;
    al ← call H Cv.convertScaleAbs l;
    o ← lift (Cv.cvtColor_GRAY2RGBA al);
    write_mat o;;
    delete (handle gray);;
    delete (handle lap);;
    delete (handle absLap)
  (* Thresholding *)
  else if t === "simple_thresh" then
    gray ← new Cv.empty;
    m ← get_mat;
    g ← lift (Cv.cvtColor_RGBA2GRAY (cv_luma H) (img m));
    out ← new Cv.empty;
    let o := Cv.threshold_binary (or_else (num p "threshold") 128) 255 g in
    o' ← lift (Cv.cvtColor_GRAY2RGBA o);
    write_mat o';;
    delete (handle gray);;
    delete (handle out)
  else if t === "adaptive_thresh" then
    gray ← new Cv.empty;
    m ← get_mat;
    g ← lift (Cv.cvtColor_RGBA2GRAY (cv_luma H) (img m));
    out ← new Cv.empty;
    o ← call H (Cv.adaptiveThreshold (or_else (num p "adaptiveBlockSize") 11)
                                     (or_else (num p "adaptiveC") 2)) g;
    o' ← lift (Cv.cvtColor_GRAY2RGBA o);
    write_mat o';;
    delete (handle gray);;
    delete (handle out)
  else if t === "otsu" then
    gray ← new Cv.empty;
    m ← get_mat;
    g ← lift (Cv.cvtColor_RGBA2GRAY (cv_luma H) (img m));
    out ← new Cv.empty;
    o ← call H Cv.threshold_otsu g;
    o' ← lift (Cv.cvtColor_GRAY2RGBA o);
    write_mat o';;
    delete (handle gray);;
    delete (handle out)
  (* Morphological *)
  else if existsb (String.eqb t) ["erode"; "dilate"; "open"; "close"] then
    out ← new Cv.empty;
    m ← get_mat;
    let ksize := or_else (num p "morphKernelSize") 3 in
    kernel ← new Cv.empty;
    o1 ← (if t === "erode" then call H (Cv.erode ksize) (img m) else mret (img out));
    o2 ← (if t === "dilate" then call H (Cv.dilate ksize) (img m) else mret o1);
    o3 ← (if t === "open" then call H (Cv.morphologyEx Cv.MORPH_OPEN ksize) (img m)
          else mret o2);
    o4 ← (if t === "close" then call H (Cv.morphologyEx Cv.MORPH_CLOSE ksize) (img m)
          else mret o3);
    delete (handle m);;
    set_mat (rebind out o4);;
    push out;;
    delete (handle kernel)
  (* Geometric *)
  else if t === "translate" then
    out ← new Cv.empty;
    m ← get_mat;
    M ← new (Cv.zeros 2 3 Cv.CV_64F);
    o ← call H (Cv.warpAffine
                  (Cv.FromArray [1; 0; or_else (num p "translateX") 0;
                                 0; 1; or_else (num p "translateY") 0]%float)
                  (cols (img m)) (rows (img m))) (img m);
    delete (handle m);;
    set_mat (rebind out o);;
    push out;;
    delete (handle M)
  else if t === "perspective" then
    (* Not implemented: requires 4 source/dest points *)
    mret tt
  else if t === "affine" then
    (* Not implemented: requires 3 source/dest points *)
    mret tt
  (* Blending & Arithmetic *)
  else if t === "add_weighted" then
    (* Not implemented: requires two images *)
    mret tt
  (* Contours & Annotation *)
  else if t === "find_contours" then
    (* Not implemented: would require drawing contours *)
    mret tt
  else if t === "draw_text" then
    m ← get_mat;
    let text := match str p "text" with Some s => s | None => EmptyString end in
    o ← call H (Cv.putText text
                  (or_else (num p "textX") 10) (or_else (num p "textY") 30)
                  (or_else (num p "textFontSize") 1 / 10)) (img m);
    write_mat o
  else if t === "feature_detect" then
    (* Not implemented: would require ORB/SIFT/AKAZE *)
    mret tt
  else mret tt.

(** The [for] loop over the pipeline with its inner [try]/[catch]: the loop
    ends at the first step that throws ([break]), and reports that step and
    the error. *)
Fixpoint for_steps (H : Host) (steps : list TransformStep) (r : Run)
    : option (TransformStep * string) * Run :=
  match steps with
  | [] => (None, r)
  | step :: rest =>
      match step_body H step r with
      | (Ok _, r') => for_steps H rest r'
      | (Throw err, r') => (Some (step, err), r')
      end
  end.

(** The variables as the loop finds them: [mat] is a clone of the source,
    the first object of the run, and [matsToRelease] holds it. *)
Definition start (src : Mat) : Run :=
  let '(h, L) := alloc empty_ledger in
  {| mat := {| handle := h; img := Cv.clone src |};
     matsToRelease := [h];
     objs := L;
     logged := [] |}.

(** The [finally] block: [delete()] on every entry of [matsToRelease]. *)
Definition release_all (hs : list nat) (L : Ledger) : Ledger :=
  fold_left (fun L m => release m L) hs L.

(** What a run leaves behind: the component state, the provider's ledger of
    the objects the run created, and the messages shown. *)
Record Outcome := {
  state : Workbench;
  objects : Ledger;
  alerts : list string;
  console : list string;
}.

Definition quiet (w : Workbench) : Outcome :=
  {| state := w; objects := empty_ledger; alerts := []; console := [] |}.

(** [applyTransformPipeline]. *)
Definition applyTransformPipeline (H : Host) (w : Workbench) : Outcome :=
  match originalMat w with
  | None => quiet w
  | Some src =>
      if negb (cv w) then quiet w
      else
        match transformPipeline w with
        | [] =>
            quiet (setImages (fun prev =>
                     {| original := original prev;
                        processed := original prev;
                        intermediateSteps := [] |}) w)
        | _ :: _ =>
            (* Clear processed image while processing *)
            let w1 := setImages (fun prev =>
                        {| original := original prev;
                           processed := None;
                           intermediateSteps := intermediateSteps prev |}) w in
            let '(failure, r) := for_steps H (transformPipeline w) (start src) in
            let w2 :=
              match failure with
              | Some _ =>
                  setImages (fun prev =>
                    {| original := original prev;
                       processed := None;
                       intermediateSteps := intermediateSteps prev |}) w1
              | None => w1
              end in
            let processedUrl := matToDataUrl H (img (mat r)) in
            let w3 := setImages (fun prev =>
                        {| original := original prev;
                           processed := Some processedUrl;
                           intermediateSteps := [] |}) w2 in
            (* finally *)
            {| state := w3;
               objects := release_all (matsToRelease r) (objs r);
               alerts :=
                 match failure with
                 | Some (step, err) =>
                     ["Error in operation '" +:+ name step +:+ "': " +:+ err]
                 | None => []
                 end;
               console :=
                 logged r ++
                 match failure with
                 | Some (step, err) =>
                     ["Error in operation '" +:+ type step +:+ "': " +:+ err]
                 | None => []
                 end |}
        end
  end.

(** [handleImageUpload] once the file is read: [result] is its data URL. *)
Definition handleImageUpload (H : Host) (result : string) (w : Workbench) : Workbench :=
  let w1 := if cv w then setOriginalMat (dataUrlToMat H result) w else w in
  setTransformPipeline (fun _ => [])
    (setImages (fun _ => {| original := Some result;
                            processed := Some result;
                            intermediateSteps := [] |}) w1).

(** ** The code synthesizer *)

(** The line feed of the template literals. *)
Definition nl : string := String (ascii_of_nat 10) EmptyString.

(** The kernel size the synthesizer writes for a step of type [blur]. *)
Definition synth_blur_ksize (p : TransformParams) : Number :=
  (or_else (num p "blur") 1 * 2 + 1)%float.

(** The comment line that opens the block of step [index] in the script. *)
Definition step_header (H : Host) (index : nat) (step : TransformStep) : string :=
  nl +:+ "# Step " +:+ Number_toString H (of_Z (Z.of_nat index) + 1)%float
     +:+ ": " +:+ name step +:+ nl.

(** The [switch] on the step's type: the calls written for the step. *)
Definition step_code (H : Host) (step : TransformStep) : string :=
  let show := Number_toString H in
  let p := params step in
  let t := type step in
  if t === "blur" then
    "processed_image = cv2.GaussianBlur(processed_image, ("
      +:+ show (synth_blur_ksize p) +:+ ", " +:+ show (synth_blur_ksize p)
      +:+ "), 0)" +:+ nl
  else if t === "threshold" then
    "gray = cv2.cvtColor(processed_image, cv2.COLOR_BGR2GRAY)" +:+ nl
      +:+ "_, processed_image = cv2.threshold(gray, "
      +:+ show (or_else (num p "threshold") 128)
      +:+ ", 255, cv2.THRESH_BINARY)" +:+ nl
      +:+ "processed_image = cv2.cvtColor(processed_image, cv2.COLOR_GRAY2BGR)" +:+ nl
  else if t === "contrast" then
    "pil_image = Image.fromarray(cv2.cvtColor(processed_image, cv2.COLOR_BGR2RGB))" +:+ nl
      +:+ "enhancer = ImageEnhance.Contrast(pil_image)" +:+ nl
      +:+ "processed_image = cv2.cvtColor(np.array(enhancer.enhance("
      +:+ show (or_else (num p "contrast") 100 / 100)%float
      +:+ ")), cv2.COLOR_RGB2BGR)" +:+ nl
  else if t === "brightness" then
    "processed_image = cv2.convertScaleAbs(processed_image, alpha="
      +:+ show (or_else (num p "brightness") 100 / 100)%float
      +:+ ", beta=0)" +:+ nl
  else if t === "sharpen" then
    "kernel = np.array([[-1,-1,-1], [-1,9,-1], [-1,-1,-1]])" +:+ nl
      +:+ "processed_image = cv2.filter2D(processed_image, -1, kernel)" +:+ nl
  else if t === "crop" then
    "height, width = processed_image.shape[:2]" +:+ nl
      +:+ "x = int(width * " +:+ show (or_else (num p "cropX") 0 / 100)%float +:+ ")" +:+ nl
      +:+ "y = int(height * " +:+ show (or_else (num p "cropY") 0 / 100)%float +:+ ")" +:+ nl
      +:+ "w = int(width * " +:+ show (or_else (num p "cropWidth") 100 / 100)%float +:+ ")" +:+ nl
      +:+ "h = int(height * " +:+ show (or_else (num p "cropHeight") 100 / 100)%float +:+ ")" +:+ nl
      +:+ "processed_image = processed_image[y:y+h, x:x+w]" +:+ nl
  else EmptyString.

(** What one iteration of [forEach] appends to [code]. *)
Definition step_block (H : Host) (index : nat) (step : TransformStep) : string :=
  step_header H index step +:+ step_code H step.

Definition code_prologue : string :=
  "import cv2" +:+ nl
    +:+ "import numpy as np" +:+ nl
    +:+ "from PIL import Image, ImageEnhance" +:+ nl
    +:+ nl
    +:+ "# Load image" +:+ nl
    +:+ "image = cv2.imread('input_image.jpg')" +:+ nl
    +:+ "processed_image = image.copy()" +:+ nl
    +:+ nl
    +:+ "# Apply transform pipeline" +:+ nl.

Definition code_epilogue : string :=
  nl +:+ "# Save final processed image" +:+ nl
     +:+ "cv2.imwrite('output_image.jpg', processed_image)".

(** [generatePythonCode]. *)
Definition generatePythonCode (H : Host) (pipeline : list TransformStep) : string :=
  match pipeline with
  | [] => EmptyString
  | _ :: _ =>
      fold_left String.append (imap (step_block H) pipeline) code_prologue
        +:+ code_epilogue
  end.

(** ** A host to run the model on examples

    Luminance with OpenCV's 8-bit weights; every other numerical primitive
    returns its input unless [fails] says it throws ([sound]: none throws);
    numbers are printed as integers and a matrix as its size and values. *)
Module Example.

Definition show_int (x : Number) : string := pretty (truncZ x).

Definition show_mat (m : Mat) : string :=
  pretty (rows m) +:+ "x" +:+ pretty (cols m) +:+ ":"
    +:+ String.concat "," (map pretty (concat (concat (data m)))).

Definition host (fails : Cv.Prim -> bool) : Host :=
  {| cv_luma := fun r g b => Z.shiftr (4899 * r + 9617 * g + 1868 * b + 8192) 14;
     cv_call := fun p m => if fails p then Throw "cv exception" else Ok m;
     pow_approx := fun b _ => b;
     Number_toString := show_int;
     matToDataUrl := show_mat;
     dataUrlToMat := fun _ => Cv.empty |}.

Definition sound : Host := host (fun _ => false).

Definition px (r g b : Z) : list Z := [r; g; b; 255].

(** A 2x2 RGBA image. *)
Definition img2 : Mat :=
  {| rows := 2; cols := 2; mat_type := Cv.CV_8UC4;
     data := [[px 0 0 0; px 200 200 200]; [px 255 0 0; px 10 20 30]] |}.

(** A step as the page appends it, with some keys set afterwards. *)
Definition step (t nm : string) (p : TransformParams) : TransformStep :=
  {| id := "k3x9q2m1z"; type := t; params := p; name := nm |}.

Definition workbench (pipeline : list TransformStep) : Workbench :=
  {| images := {| original := Some "data:image/png;base64,AAAA";
                  processed := Some "data:image/png;base64,BBBB";
                  intermediateSteps := [] |};
     transformPipeline := pipeline;
     selectedCategory := "Thresholding";
     selectedOperation := "simple_thresh";
     transformParams := {["threshold" := VNum 42]};
     originalMat := Some img2;
     cv := true |}.

End Example.

(** The operation identifiers whose branch of the executor is only a comment
    ("Not implemented", "Not natively supported"). *)
Definition unimplemented : list string :=
  ["hed"; "cmyk"; "nl_means"; "perspective"; "affine"; "add_weighted";
   "find_contours"; "feature_detect"].

(** What [mat] holds after a statement, when it did not throw. *)
Definition after (x : Result unit * Run) : option Mat :=
  match x with
  | (Ok _, r) => Some (img (mat r))
  | (Throw _, _) => None
  end.

(** The gray value OpenCV.js computes for a pixel. *)
Definition gray (H : Host) (px : list Z) : Z :=
  Cv.saturate_u8 (cv_luma H (nth 0 px 0) (nth 1 px 0) (nth 2 px 0)).

(** An 8-bit matrix as OpenCV.js hands it out: every pixel has as many values
    as the type code says, each a byte. *)
Definition valid_8u (m : Mat) : Prop :=
  0 <= mat_type m
  /\ Forall (Forall (fun px => length px = Z.to_nat (Cv.channels m)
                               /\ Forall (fun v => 0 <= v <= 255) px))
            (data m).



(** * The rest of the page *)

(** ** Reordering, reset and download *)

(** The direction of a move: the literals ["up"] and ["down"]. *)
Inductive Direction := up | down.

(** [Array.prototype.findIndex]: the first index whose element satisfies the
    predicate, -1 when none does. *)
Fixpoint findIndex {A} (f : A -> bool) (l : list A) : Z :=
  match l with
  | [] => -1
  | x :: rest =>
      if f x then 0
      else let i := findIndex f rest in if i =? -1 then -1 else i + 1
  end.

(** [a.splice(start, 1)] with [start] an index of [a]: the removed elements,
    and [a] as it is afterwards. *)
Definition splice_out {A} (start : nat) (a : list A) : list A * list A :=
  (take 1 (drop start a), take start a ++ drop (S start) a).

(** [a.splice(start, 0, x)]. *)
Definition splice_in {A} (start : nat) (x : A) (a : list A) : list A :=
  take start a ++ x :: drop start a.

(** [moveTransformInPipeline]. *)
Definition moveTransformInPipeline (i : string) (direction : Direction)
    (w : Workbench) : Workbench :=
  setTransformPipeline
    (fun prev =>
       let index := findIndex (fun step => id step === i) prev in
       if index =? -1 then prev
       else
         let newIndex := match direction with
                         | up => index - 1
                         | down => index + 1
                         end in
         if (newIndex <? 0) || (Z.of_nat (length prev) <=? newIndex) then prev
         else
           match splice_out (Z.to_nat index) prev with
           | (movedStep :: _, newPipeline) =>
               splice_in (Z.to_nat newIndex) movedStep newPipeline
           | ([], _) => prev  (* not reached: [index] is an index of [prev] *)
           end)
    w.

Definition setSelectedCategory (c : string) (w : Workbench) : Workbench :=
  {| images := images w;
     transformPipeline := transformPipeline w;
     selectedCategory := c;
     selectedOperation := selectedOperation w;
     transformParams := transformParams w;
     originalMat := originalMat w;
     cv := cv w |}.

(** The change handler of the category drop-down. *)
Definition onCategoryChange (c : string) (w : Workbench) : Workbench :=
  setSelectedOperation EmptyString (setSelectedCategory c w).

(** [handleReset]; the file input it also clears is not part of the state. *)
Definition handleReset (H : Host) (w : Workbench) : Workbench :=
  let w1 :=
    setSelectedOperation EmptyString
      (setSelectedCategory EmptyString
         (setTransformParams (fun _ => ∅)
            (setTransformPipeline (fun _ => [])
               (setImages (fun prev => {| original := original prev;
                                          processed := None;
                                          intermediateSteps := [] |}) w)))) in
  (* Reset originalMat to the original image *)
  if cv w then
    match original (images w) with
    | Some url =>
        if url === EmptyString then w1
        else setOriginalMat (dataUrlToMat H url) w1
    | None => w1
    end
  else w1.

(** What [handleDownload] makes the browser save: the link's [download] name
    and its [href]. *)
Record Download := {
  download : string;
  href : string;
}.

(** [handleDownload]: nothing without a processed image. *)
Definition handleDownload (w : Workbench) : option Download :=
  match processed (images w) with
  | Some url =>
      if url === EmptyString then None
      else Some {| download := "processed-image.png"; href := url |}
  | None => None
  end.

(** ** The controls of the page

    What the rendered page lets its user do.  The page renders its controls
    only once [useOpenCv] reports the library ready, so a session starts from
    the initial values of the state hooks with [cv] there.  [offered] reads
    the conditions under which the JSX renders a control and which values
    the control can hand to its handler. *)

Definition initial : Workbench :=
  {| images := {| original := None; processed := None; intermediateSteps := [] |};
     transformPipeline := [];
     selectedCategory := EmptyString;
     selectedOperation := EmptyString;
     transformParams := ∅;
     originalMat := None;
     cv := true |}.

Inductive Event :=
| Upload (url : string)                   (* an image file was chosen and read *)
| ChooseCategory (c : string)
| ChooseOperation (v : string)
| MoveSlider (param : string) (v : Number)
| ClickAdd (fresh : string)               (* [fresh]: what [generateId] draws *)
| ClickRemove (i : string)
| ClickMove (i : string) (d : Direction)
| ClickApply
| ClickReset.

Definition dispatch (H : Host) (e : Event) (w : Workbench) : Workbench :=
  match e with
  | Upload url => handleImageUpload H url w
  | ChooseCategory c => onCategoryChange c w
  | ChooseOperation v => onOperationChange v w
  | MoveSlider param v => onSliderChange param v w
  | ClickAdd fresh => onClickAddToPipeline fresh w
  | ClickRemove i => removeTransformFromPipeline i w
  | ClickMove i d => moveTransformInPipeline i d w
  | ClickApply => state (applyTransformPipeline H w)
  | ClickReset => handleReset H w
  end.

(** The [min], [max] and [step] of the slider of a parameter. *)
Definition slider_range (param : string) : Number * Number * Number :=
  let r := (0, 200, 1)%float in
  let r := if param === "bilateralDiameter" then (1, 15, 2)%float else r in
  if (param === "bilateralSigmaColor") || (param === "bilateralSigmaSpace")
  then (1, 200, 1)%float else r.

(** The arrow buttons of the pipeline list: the button of the step at
    [index] passes that step's [id]; "up" is disabled on the first step and
    "down" on the last. *)
Definition move_offered (i : string) (d : Direction) (pipeline : list TransformStep)
    : bool :=
  existsb (fun '(index, step) =>
             (id step === i)
             && negb match d with
                     | up => Z.of_nat index =? 0
                     | down => Z.of_nat index =? Z.of_nat (length pipeline) - 1
                     end)
          (imap pair pipeline).

Definition offered (e : Event) (w : Workbench) : bool :=
  match e with
  | Upload _ => true
  | ChooseCategory c =>
      existsb (fun cat => category cat === c) TRANSFORM_CATEGORIES
  | ChooseOperation v =>
      negb (selectedCategory w === EmptyString)
      && match currentCategory w with
         | Some cat => existsb (fun o => value o === v) (operations cat)
         | None => false
         end
  | MoveSlider param v =>
      match currentOperation w with
      | Some o =>
          existsb (String.eqb param) (op_params o)
          && let '(min, max, _) := slider_range param in
             ((min <=? v) && (v <=? max))%float
      | None => false
      end
  | ClickAdd _ =>
      match currentOperation w with Some _ => true | None => false end
  | ClickRemove i => existsb (fun step => id step === i) (transformPipeline w)
  | ClickMove i d => move_offered i d (transformPipeline w)
  | ClickApply | ClickReset => negb (Z.of_nat (length (transformPipeline w)) =? 0)
  end.

(** The states a session can be in. *)
Inductive reachable (H : Host) : Workbench -> Prop :=
| reach_initial : reachable H initial
| reach_event (e : Event) (w : Workbench) :
    reachable H w -> offered e w = true -> reachable H (dispatch H e w).

(** A step as the controls can only build it: an operation of the catalog
    under its label, with the static defaults. *)
Definition from_catalog (step : TransformStep) : Prop :=
  params step = DEFAULT_PARAMS
  /\ exists cat o,
       In cat TRANSFORM_CATEGORIES /\ In o (operations cat)
       /\ type step = value o /\ name step = label o.

(** The state after the events [es] in turn, when each one is offered in
    the state it meets. *)
Fixpoint session (H : Host) (es : list Event) (w : Workbench) : option Workbench :=
  match es with
  | [] => Some w
  | e :: rest => if offered e w then session H rest (dispatch H e w) else None
  end.

(** The RGBA image a grayscale step leaves for an RGBA image: the gray value
    in the three colour channels, alpha opaque. *)
Definition gray_image (H : Host) (m : Mat) : Mat :=
  {| rows := rows m;
     cols := cols m;
     mat_type := Cv.CV_MAKETYPE (Cv.depth m) 4;
     data := map (map (fun px => let g := gray H px in [g; g; g; 255])) (data m) |}.

(** The provider's luminance of a gray pixel is its gray value (OpenCV's
    weights add up to one). *)
Definition luma_neutral (H : Host) : Prop :=
  forall v, 0 <= v <= 255 -> cv_luma H v v v = v.

(** The operations whose transform starts by converting the buffer to
    gray. *)
Definition gray_first : list string :=
  ["grayscale"; "sobel"; "laplacian"; "simple_thresh"; "adaptive_thresh"; "otsu"].


(** ** The hook [useOpenCv]

    The hook's state and ref, and the two timers of its effect: the 100 ms
    timer by which [checkReady] calls itself again, and the 10 s timer that
    reports a failure.  A timer fires only while it is pending; what
    [checkReady] finds in [window.cv] when it runs is the environment's. *)
Module UseOpenCv.

Record Hook := {
  isReady : bool;
  error : option string;
  cv : bool;            (* the state [cv]: null, or the library *)
  isReadyRef : bool;
  timeout : bool;       (* the timer of [checkReady] is pending *)
  failTimeout : bool;   (* the timer of the failure report is pending *)
}.

(** [checkReady]; [available] says whether [window.cv.Mat] is there. *)
Definition checkReady (available : bool) (h : Hook) : Hook :=
  if available then
    {| isReady := true; error := error h; cv := true; isReadyRef := true;
       timeout := timeout h; failTimeout := failTimeout h |}
  else
    {| isReady := isReady h; error := error h; cv := cv h;
       isReadyRef := isReadyRef h;
       timeout := true; failTimeout := failTimeout h |}.

(** The effect, run when the component mounts: [checkReady()], then the
    failure timer is set. *)
Definition mount (available : bool) : Hook :=
  let h := checkReady available
             {| isReady := false; error := None; cv := false; isReadyRef := false;
                timeout := false; failTimeout := false |} in
  {| isReady := isReady h; error := error h; cv := cv h;
     isReadyRef := isReadyRef h;
     timeout := timeout h; failTimeout := true |}.

Inductive Tick :=
| Poll (available : bool)   (* the timer of [checkReady] fires *)
| Fail                      (* the failure timer fires *)
| Unmount.                  (* the effect's cleanup *)

Definition fire (t : Tick) (h : Hook) : Hook :=
  match t with
  | Poll available =>
      if timeout h then
        checkReady available
          {| isReady := isReady h; error := error h; cv := cv h;
             isReadyRef := isReadyRef h;
             timeout := false; failTimeout := failTimeout h |}
      else h
  | Fail =>
      if failTimeout h then
        {| isReady := isReady h;
           error := if negb (isReadyRef h) then Some "Failed to load OpenCV.js"
                    else error h;
           cv := cv h;
           isReadyRef := isReadyRef h;
           timeout := timeout h; failTimeout := false |}
      else h
  | Unmount =>
      {| isReady := isReady h; error := error h; cv := cv h;
         isReadyRef := isReadyRef h;
         timeout := false; failTimeout := false |}
  end.

(** The hook after its effect ran and the timers of [ts] fired in turn. *)
Definition after_ticks (available : bool) (ts : list Tick) : Hook :=
  fold_left (fun h t => fire t h) ts (mount available).

End UseOpenCv.

(** What the page renders: its early returns on the hook's [isReady] and
    [error], before the workbench itself. *)
Inductive Screen :=
| LoadingOpenCv                 (* "Loading OpenCV.js..." *)
| ErrorText (message : string)  (* the text of [cvError] *)
| Controls.                     (* the workbench *)

Definition rendered (h : UseOpenCv.Hook) : Screen :=
  if negb (UseOpenCv.isReady h) then LoadingOpenCv
  else
    match UseOpenCv.error h with
    | Some message => if message === EmptyString then Controls else ErrorText message
    | None => Controls
    end.

(** What holds of the hook after its effect and any timers: the ref follows
    the state, the library object is there exactly when the hook is ready, a
    ready hook has no poll pending, and an error is the failure timer's. *)
Definition hook_inv (h : UseOpenCv.Hook) : Prop :=
  UseOpenCv.isReadyRef h = UseOpenCv.isReady h
  /\ UseOpenCv.cv h = UseOpenCv.isReady h
  /\ (UseOpenCv.isReady h = true -> UseOpenCv.timeout h = false)
  /\ (UseOpenCv.error h = None
      \/ UseOpenCv.error h = Some "Failed to load OpenCV.js"
         /\ UseOpenCv.failTimeout h = false).

(** ** The mathematical explanations *)

(** The double quote of the template literals. *)
Definition dq : string := String (ascii_of_nat 34) EmptyString.

(** An entry of the table [explanations]. *)
Record Explanation := {
  title : string;
  description : string;
  formula : string;
  explanation : string;
  parameterEffects : option string;
  example : option string;
  kernel : option (list (list Number));
  kernelDivisor : option Number;
}.

(** The table [explanations] of [getMathematicalExplanation], in the order
    of the source. *)
Definition explanations : list (string * Explanation) := [
  ("grayscale",
   {| title := "Grayscale Conversion";
      description :=
        "Converts a color image to grayscale by removing hue and saturation while retaining luminance. This is done by taking a weighted sum of the red, green, and blue channels for each pixel. The weights (0.299, 0.587, 0.114) reflect human sensitivity to each color.";
      formula := "Y = 0.299R + 0.587G + 0.114B";
      explanation :=
        "For each pixel, the output intensity is calculated as: Y = 0.299*R + 0.587*G + 0.114*B. This means green contributes most, blue least. The result is a single-channel image.";
      parameterEffects :=
        Some "No parameters for grayscale conversion.";
      example :=
        Some ("A red pixel (255,0,0) becomes 76."
             +:+ nl
             +:+ "A green pixel (0,255,0) becomes 150."
             +:+ nl
             +:+ "A blue pixel (0,0,255) becomes 29.");
      kernel := None;
      kernelDivisor := None |});
  ("gaussian_blur",
   {| title := "Gaussian Blur";
      description :=
        "Smooths the image by averaging pixels with their neighbors, weighted by a Gaussian (bell curve) kernel. This reduces noise and detail.";
      formula := "G(x,y) = (1/(2πσ²))·e^{-(x²+y²)/(2σ²)}";
      explanation :=
        "For each pixel, take a square neighborhood (e.g., 3x3, 5x5). Multiply each neighbor by the corresponding kernel value, sum, and divide by the kernel sum.";
      parameterEffects :=
        Some ("**Parameter: blur (kernel size)**"
             +:+ nl
             +:+ "- Increasing kernel size (e.g., 3→7) makes the blur stronger: more pixels are averaged, so the image becomes smoother and details are lost."
             +:+ nl
             +:+ "- Decreasing kernel size makes the blur weaker: less smoothing, more detail.");
      example :=
        Some ("- blur=3: only immediate neighbors are averaged."
             +:+ nl
             +:+ "- blur=11: a much larger area is averaged, so even large features become blurry."
             +:+ nl
             +:+ nl
             +:+ "**Intuition:** Like looking through frosted glass: higher blur = thicker glass.");
      kernel := Some [[1; 2; 1]; [2; 4; 2]; [1; 2; 1]]%float;
      kernelDivisor := Some 16%float |});
  ("median_blur",
   {| title := "Median Blur";
      description :=
        "Reduces noise by replacing each pixel with the median value in its neighborhood. Especially effective for salt-and-pepper noise.";
      formula := "I'(x,y) = median(mathcal{N}(x,y))";
      explanation :=
        "For each pixel, sort the values in its neighborhood and pick the median.";
      parameterEffects :=
        Some ("**Parameter: blur (kernel size)**"
             +:+ nl
             +:+ "- Larger kernel = stronger noise reduction, but more detail lost."
             +:+ nl
             +:+ "- Too large a kernel can make the image look cartoonish.");
      example :=
        Some "- A single white pixel in a black area will be removed if the kernel is large enough.";
      kernel := None;
      kernelDivisor := None |});
  ("bilateral",
   {| title := "Bilateral Filter";
      description :=
        "Blurs the image while preserving edges by combining spatial and intensity information.";
      formula := "I'(x) = Σ w_s(x,i)·w_r(I(x),I(i))·I(i)";
      explanation :=
        "Each neighbor is weighted by both distance (spatial) and color similarity (range).";
      parameterEffects :=
        Some ("**Parameters:**"
             +:+ nl
             +:+ "- Diameter: size of the neighborhood."
             +:+ nl
             +:+ "- SigmaColor: how much color difference is tolerated."
             +:+ nl
             +:+ "- SigmaSpace: how much spatial distance is tolerated."
             +:+ nl
             +:+ nl
             +:+ "**Effects:**"
             +:+ nl
             +:+ "- Higher SigmaColor = more smoothing across colors (can blur across edges)."
             +:+ nl
             +:+ "- Higher SigmaSpace = more spatial smoothing.");
      example :=
        Some "- Good for smoothing skin in portraits without blurring edges.";
      kernel := None;
      kernelDivisor := None |});
  ("canny",
   {| title := "Canny Edge Detection";
      description :=
        "Detects edges by finding areas of rapid intensity change. Uses gradient calculation, non-maximum suppression, and hysteresis thresholding.";
      formula := "Gradient = sqrt((∂I/∂x)^2 + (∂I/∂y)^2)";
      explanation :=
        ("1. Convert to grayscale."
        +:+ nl
        +:+ "2. Compute gradients (Sobel)."
        +:+ nl
        +:+ "3. Thin edges (non-maximum suppression)."
        +:+ nl
        +:+ "4. Use two thresholds: strong edges (above high), weak edges (between low and high)."
        +:+ nl
        +:+ "5. Track edges by hysteresis.");
      parameterEffects :=
        Some ("**Parameters:**"
             +:+ nl
             +:+ "- Threshold1: lower bound."
             +:+ nl
             +:+ "- Threshold2: upper bound."
             +:+ nl
             +:+ nl
             +:+ "**Effects:**"
             +:+ nl
             +:+ "- Lower thresholds = more edges, more noise."
             +:+ nl
             +:+ "- Higher thresholds = fewer, cleaner edges.");
      example :=
        Some "- Threshold1=50, Threshold2=150 is typical for natural images.";
      kernel := None;
      kernelDivisor := None |});
  ("sobel",
   {| title := "Sobel Edge Detection";
      description :=
        "Highlights edges by computing the gradient in x and y directions using Sobel kernels.";
      formula := "Gx = [-1 0 1; -2 0 2; -1 0 1], Gy = Gx^T";
      explanation :=
        "For each pixel, apply the kernel to compute the gradient in x (horizontal) or y (vertical).";
      parameterEffects :=
        Some ("**Parameters:**"
             +:+ nl
             +:+ "- Dx: order of derivative x (1 = horizontal edges)."
             +:+ nl
             +:+ "- Dy: order of derivative y (1 = vertical edges)."
             +:+ nl
             +:+ nl
             +:+ "**Effects:**"
             +:+ nl
             +:+ "- Dx=1, Dy=0: horizontal edges."
             +:+ nl
             +:+ "- Dx=0, Dy=1: vertical edges."
             +:+ nl
             +:+ "- Both=1: diagonal edges.");
      example :=
        Some "- A white square on black: Sobel will highlight the square's edges.";
      kernel := Some [[(-1); 0; 1]; [(-2); 0; 2]; [(-1); 0; 1]]%float;
      kernelDivisor := None |});
  ("laplacian",
   {| title := "Laplacian Edge Detection";
      description :=
        "Detects edges by computing the second derivative (Laplacian) of the image. Sensitive to noise.";
      formula := "∇²I = ∂²I/∂x² + ∂²I/∂y²";
      explanation :=
        "For each pixel, apply the Laplacian kernel.";
      parameterEffects :=
        Some ("- Highlights regions of rapid intensity change (edges)."
             +:+ nl
             +:+ "- Sensitive to noise: may need smoothing first.");
      example :=
        Some "- On a sharp edge, Laplacian gives a strong response.";
      kernel := Some [[0; 1; 0]; [1; (-4); 1]; [0; 1; 0]]%float;
      kernelDivisor := None |});
  ("simple_thresh",
   {| title := "Simple Thresholding";
      description :=
        "Converts grayscale image to binary using a fixed threshold.";
      formula := "I'(x,y) = 255 if I(x,y) > T else 0";
      explanation :=
        "For each pixel, if its value > threshold, set to 255 (white), else 0 (black).";
      parameterEffects :=
        Some ("**Parameter: threshold**"
             +:+ nl
             +:+ "- Lower threshold = more white pixels."
             +:+ nl
             +:+ "- Higher threshold = more black pixels.");
      example :=
        Some "- Threshold=128: mid-gray becomes white, darker becomes black.";
      kernel := None;
      kernelDivisor := None |});
  ("adaptive_thresh",
   {| title := "Adaptive Thresholding";
      description :=
        "Threshold is determined for smaller regions, allowing for varying lighting.";
      formula := "T(x,y) = mean(I(x,y) in block) - C";
      explanation :=
        "For each block, compute the mean (or weighted mean) and subtract C.";
      parameterEffects :=
        Some ("**Parameters:**"
             +:+ nl
             +:+ "- BlockSize: size of the region."
             +:+ nl
             +:+ "- C: constant subtracted."
             +:+ nl
             +:+ nl
             +:+ "**Effects:**"
             +:+ nl
             +:+ "- Smaller block = more local adaptation, but more noise."
             +:+ nl
             +:+ "- Larger block = smoother, but may miss small features."
             +:+ nl
             +:+ "- Higher C = more black pixels.");
      example :=
        Some "- Good for documents with uneven lighting.";
      kernel := None;
      kernelDivisor := None |});
  ("otsu",
   {| title := "Otsu's Thresholding";
      description :=
        "Automatically determines the optimal threshold value by maximizing between-class variance.";
      formula := "Maximize σ_b^2 = w_0(μ_0-μ_T)^2 + w_1(μ_1-μ_T)^2";
      explanation :=
        "Tries all possible thresholds and picks the one that best separates foreground and background.";
      parameterEffects :=
        Some "- No parameter: works best for bimodal histograms.";
      example :=
        Some "- Useful for segmenting objects from background.";
      kernel := None;
      kernelDivisor := None |});
  ("erode",
   {| title := "Erosion";
      description :=
        "Shrinks bright regions using a structuring element (kernel).";
      formula := "I'(x,y) = min(I(x+i, y+j) | (i,j) in kernel)";
      explanation :=
        "For each pixel, replace with the minimum value in the neighborhood.";
      parameterEffects :=
        Some ("**Parameter: kernel size**"
             +:+ nl
             +:+ "- Larger kernel = more erosion.");
      example :=
        Some "- Removes small white noise, disconnects objects.";
      kernel := Some [[1; 1; 1]; [1; 1; 1]; [1; 1; 1]]%float;
      kernelDivisor := None |});
  ("dilate",
   {| title := "Dilation";
      description :=
        "Expands bright regions using a structuring element (kernel).";
      formula := "I'(x,y) = max(I(x+i, y+j) | (i,j) in kernel)";
      explanation :=
        "For each pixel, replace with the maximum value in the neighborhood.";
      parameterEffects :=
        Some ("**Parameter: kernel size**"
             +:+ nl
             +:+ "- Larger kernel = more dilation.");
      example :=
        Some "- Fills small holes, connects objects.";
      kernel := Some [[1; 1; 1]; [1; 1; 1]; [1; 1; 1]]%float;
      kernelDivisor := None |});
  ("open",
   {| title := "Opening";
      description :=
        "Erosion followed by dilation. Removes small objects from the foreground.";
      formula := "I_open = dilate(erode(I))";
      explanation :=
        "First erode, then dilate.";
      parameterEffects :=
        Some ("**Parameter: kernel size**"
             +:+ nl
             +:+ "- Larger kernel = removes larger objects.");
      example :=
        Some "- Cleans up salt-and-pepper noise.";
      kernel := None;
      kernelDivisor := None |});
  ("close",
   {| title := "Closing";
      description :=
        "Dilation followed by erosion. Closes small holes in the foreground.";
      formula := "I_close = erode(dilate(I))";
      explanation :=
        "First dilate, then erode.";
      parameterEffects :=
        Some ("**Parameter: kernel size**"
             +:+ nl
             +:+ "- Larger kernel = closes larger holes.");
      example :=
        Some "- Fills gaps in text or objects.";
      kernel := None;
      kernelDivisor := None |});
  ("translate",
   {| title := "Translation";
      description :=
        "Shifts the image by a given offset.";
      formula := "I'(x,y) = I(x-tx, y-ty)";
      explanation :=
        "Moves the image horizontally and/or vertically.";
      parameterEffects :=
        Some ("**Parameters:**"
             +:+ nl
             +:+ "- translateX: right (+) or left (-)"
             +:+ nl
             +:+ "- translateY: down (+) or up (-)"
             +:+ nl
             +:+ nl
             +:+ "**Example:**"
             +:+ nl
             +:+ "- translateX=10 moves image 10 pixels right.");
      example :=
        Some "- translateX=10 moves image 10 pixels right.";
      kernel := None;
      kernelDivisor := None |});
  ("draw_text",
   {| title := "Draw Text";
      description :=
        "Draws text on the image at a specified location.";
      formula := "N/A";
      explanation :=
        "Renders a string using a font at the given coordinates.";
      parameterEffects :=
        Some ("**Parameters:**"
             +:+ nl
             +:+ "- text: the string"
             +:+ nl
             +:+ "- textX, textY: position"
             +:+ nl
             +:+ "- textFontSize: size"
             +:+ nl
             +:+ "- textColor: color"
             +:+ nl
             +:+ nl
             +:+ "**Example:**"
             +:+ nl
             +:+ "- text="
             +:+ dq
             +:+ "Hello"
             +:+ dq
             +:+ ", textX=50, textY=50 draws 'Hello' at (50,50).");
      example :=
        Some ("- text="
             +:+ dq
             +:+ "Hello"
             +:+ dq
             +:+ ", textX=50, textY=50 draws 'Hello' at (50,50).");
      kernel := None;
      kernelDivisor := None |})
].

(** The names every object inherits from [Object.prototype]: read as a key
    of [explanations] they give an inherited member, not [undefined]. *)
Definition Object_prototype : list string :=
  ["constructor"; "hasOwnProperty"; "isPrototypeOf"; "propertyIsEnumerable";
   "toLocaleString"; "toString"; "valueOf"; "__proto__";
   "__defineGetter__"; "__defineSetter__"; "__lookupGetter__"; "__lookupSetter__"].

(** What [explanations[key]] is. *)
Inductive Member :=
| Entry (e : Explanation)
| Inherited (key : string).

(** [explanations[key] || null]. *)
Definition explanation_of (key : string) : option Member :=
  match List.find (fun entry => fst entry === key) explanations with
  | Some entry => Some (Entry (snd entry))
  | None =>
      if existsb (String.eqb key) Object_prototype then Some (Inherited key)
      else None
  end.

(** [getMathematicalExplanation]; [selectedPipelineStep] is the state of the
    step selector of the panel. *)
Definition getMathematicalExplanation (transformPipeline : list TransformStep)
    (selectedPipelineStep : string) : option Member :=
  match transformPipeline with
  | [] => None
  | first :: _ =>
      (* Default to first step if none selected *)
      let selectedStep :=
        match List.find (fun step => id step === selectedPipelineStep)
                        transformPipeline with
        | Some step => step
        | None => first
        end in
      explanation_of (type selectedStep)
  end.

(** Example sessions and hosts. *)
Module Tour.

Definition step (i t nm : string) : TransformStep :=
  {| id := i; type := t; params := DEFAULT_PARAMS; name := nm |}.

(** Upload, then a gamma, a contrast and a crop step, with a slider moved
    before the first append. *)
Definition events : list Event :=
  [Upload "data:image/png;base64,AAAA";
   ChooseCategory "Point Operations";
   ChooseOperation "gamma";
   MoveSlider "gamma" 50;
   ClickAdd "a1b2c3d4e";
   ChooseOperation "contrast";
   ClickAdd "f5g6h7i8j";
   ChooseCategory "Basic Operations";
   ChooseOperation "crop";
   ClickAdd "k9l0m1n2o"].

Definition pipeline : list TransformStep :=
  [step "a1b2c3d4e" "gamma" "Gamma Correction";
   step "f5g6h7i8j" "contrast" "Contrast Adjustment";
   step "k9l0m1n2o" "crop" "Crop"].

(** The state the events lead to. *)
Definition visited : Workbench :=
  {| images := {| original := Some "data:image/png;base64,AAAA";
                  processed := Some "data:image/png;base64,AAAA";
                  intermediateSteps := [] |};
     transformPipeline := pipeline;
     selectedCategory := "Basic Operations";
     selectedOperation := EmptyString;
     transformParams :=
       <["cropHeight" := VNum 80]>
         (<["cropWidth" := VNum 80]>
            (<["cropY" := VNum 10]> (<["cropX" := VNum 10]> ∅)));
     originalMat := Some Cv.empty;
     cv := true |}.


End Tour.

(** * Properties *)

(** ** Numbers that hold integers *)

Section Numbers.




Lemma digits2_size (p : positive) : digits2_pos p = Pos.size p.
Proof. induction p; cbn; congruence. Qed.



















End Numbers.

(** ** Editing and the empty pipeline *)

(** C9.  With a source buffer loaded and OpenCV.js ready, running the empty
    pipeline shows the original image again: the processed image is the
    original data URL, the source matrix stays as it was, and the run neither
    creates nor deletes any OpenCV.js object and reports nothing. *)
Theorem empty_pipeline_is_identity (H : Host) (w : Workbench) (src : Mat) :
  originalMat w = Some src ->
  cv w = true ->
  transformPipeline w = [] ->
  let o := applyTransformPipeline H w in
  processed (images (state o)) = original (images w)
  /\ original (images (state o)) = original (images w)
  /\ originalMat (state o) = Some src
  /\ objects o = empty_ledger
  /\ alerts o = [].
Proof.
  intros Hsrc Hcv Hnil. unfold applyTransformPipeline.
  rewrite Hsrc, Hcv, Hnil. cbn. now rewrite Hsrc.
Qed.

Lemma empty_pipeline_is_identity_witness :
  let w := Example.workbench [] in
  let o := applyTransformPipeline Example.sound w in
  processed (images (state o)) = Some "data:image/png;base64,AAAA"
  /\ original (images (state o)) = original (images w)
  /\ originalMat (state o) = Some Example.img2
  /\ objects o = empty_ledger
  /\ alerts o = [].
Proof.
  exact (empty_pipeline_is_identity Example.sound (Example.workbench []) Example.img2
           eq_refl eq_refl eq_refl).
Defined.

(** After an upload the original data URL and the source matrix belong
    together, so the empty pipeline shows the image the source was decoded
    from. *)
Lemma upload_then_empty_run (H : Host) (url : string) (w : Workbench) :
  cv w = true ->
  let w' := handleImageUpload H url w in
  originalMat w' = Some (dataUrlToMat H url)
  /\ processed (images (state (applyTransformPipeline H w'))) = Some url.
Proof.
  intros Hcv. unfold handleImageUpload. rewrite Hcv. cbn.
  unfold applyTransformPipeline. cbn. now rewrite Hcv.
Qed.

Lemma DEFAULT_PARAMS_table :
  map_to_list DEFAULT_PARAMS ≡ₚ
    [("blur", VNum 5); ("threshold", VNum 128); ("contrast", VNum 120);
     ("brightness", VNum 110); ("sharpen", VNum 1); ("cropX", VNum 10);
     ("cropY", VNum 10); ("cropWidth", VNum 80); ("cropHeight", VNum 80)].
Proof.
  unfold DEFAULT_PARAMS. apply map_to_list_to_map.
  apply (bool_decide_unpack _). by vm_compute.
Qed.

(** C10.  Appending a step stores the static table [DEFAULT_PARAMS]
    (blur 5, threshold 128, contrast 120, brightness 110, sharpen 1, crop
    10/10/80/80) as the step's parameters, whatever operation is selected and
    whatever the sliders were moved to: both the callback and the button's
    click handler do so, and a slider change before the append changes
    nothing in the pipeline that results. *)
Theorem append_stores_default_params (fresh : string) (w : Workbench) :
  selectedOperation w <> EmptyString ->
  (exists nm,
      transformPipeline (addTransformToPipeline fresh w)
      = transformPipeline w
          ++ [{| id := fresh; type := selectedOperation w;
                 params := DEFAULT_PARAMS; name := nm |}])
  /\ (forall o, currentOperation w = Some o ->
        transformPipeline (onClickAddToPipeline fresh w)
        = transformPipeline w
            ++ [{| id := fresh; type := selectedOperation w;
                   params := DEFAULT_PARAMS; name := label o |}])
  /\ (forall key v,
        transformPipeline (addTransformToPipeline fresh (onSliderChange key v w))
        = transformPipeline (addTransformToPipeline fresh w)
        /\ transformPipeline (onClickAddToPipeline fresh (onSliderChange key v w))
           = transformPipeline (onClickAddToPipeline fresh w))
  /\ map_to_list DEFAULT_PARAMS ≡ₚ
       [("blur", VNum 5); ("threshold", VNum 128); ("contrast", VNum 120);
        ("brightness", VNum 110); ("sharpen", VNum 1); ("cropX", VNum 10);
        ("cropY", VNum 10); ("cropWidth", VNum 80); ("cropHeight", VNum 80)].
Proof.
  intros Hsel.
  assert (Hne : (selectedOperation w === EmptyString) = false)
    by (now apply String.eqb_neq).
  repeat split.
  - unfold addTransformToPipeline. rewrite Hne. cbn. eauto.
  - intros o Ho. unfold onClickAddToPipeline. rewrite Ho, Hne. reflexivity.
  - unfold addTransformToPipeline, onSliderChange. cbn. now rewrite Hne.
  - unfold onClickAddToPipeline.
    change (currentOperation (onSliderChange key v w)) with (currentOperation w).
    destruct (currentOperation w); [|reflexivity].
    change (selectedOperation (onSliderChange key v w)) with (selectedOperation w).
    now rewrite Hne.
  - apply DEFAULT_PARAMS_table.
Qed.

Lemma append_stores_default_params_witness :
  let w := onSliderChange "threshold" 200 (Example.workbench []) in
  selectedOperation w <> EmptyString
  /\ transformParams w !! "threshold" = Some (VNum 200)
  /\ transformPipeline (onClickAddToPipeline "k3x9q2m1z" w)
     = [{| id := "k3x9q2m1z"; type := "simple_thresh";
           params := DEFAULT_PARAMS; name := "Simple Threshold" |}].
Proof.
  split; [discriminate|]. split; [by vm_compute|].
  destruct (append_stores_default_params "k3x9q2m1z"
              (onSliderChange "threshold" 200 (Example.workbench [])))
    as (_ & Hclick & _); [discriminate|].
  exact (Hclick (op "simple_thresh" "Simple Threshold" ["threshold"]) eq_refl).
Defined.

(** ** Steps without a transform *)

Lemma append_empty_r (s : string) : s +:+ EmptyString = s.
Proof.
  induction s as [|c s IH]; [reflexivity|].
  change (String c (s +:+ EmptyString) = String c s). now f_equal.
Qed.

Lemma identity_pass (H : Host) (step : TransformStep) (r : Run) :
  In (type step) unimplemented -> step_body H step r = (Ok tt, r).
Proof.
  intros Hin. unfold step_body. cbn in Hin.
  repeat (destruct Hin as [<-|Hin]; [reflexivity|]). destruct Hin.
Qed.

Lemma header_only (H : Host) (index : nat) (step : TransformStep) :
  In (type step) (["gaussian_blur"; "median_blur"] ++ unimplemented) ->
  step_block H index step = step_header H index step.
Proof.
  intros Hin. unfold step_block.
  rewrite <- (append_empty_r (step_header H index step)) at 2. f_equal.
  unfold step_code. cbn in Hin.
  repeat (destruct Hin as [<-|Hin]; [reflexivity|]). destruct Hin.
Qed.

(** C4, as the code has it.  A step whose operation is recognized but has no
    transform (hed, cmyk, nl_means, perspective, affine, add_weighted,
    find_contours, feature_detect) throws nothing and leaves every variable
    of the run, the current buffer included, as it was; in the script the
    step still gets its comment line "# Step n: name", and nothing else. *)
Theorem unimplemented_step_identity_and_comment
    (H : Host) (step : TransformStep) (index : nat) (r : Run) :
  In (type step) unimplemented ->
  step_body H step r = (Ok tt, r)
  /\ step_block H index step
     = nl +:+ "# Step " +:+ Number_toString H (of_Z (Z.of_nat index) + 1)%float
          +:+ ": " +:+ name step +:+ nl.
Proof.
  intros Hin. split; [now apply identity_pass|].
  apply header_only. apply in_or_app. now right.
Qed.

Lemma unimplemented_step_identity_and_comment_witness :
  let step := Example.step "perspective" "Perspective Transform" DEFAULT_PARAMS in
  In (type step) unimplemented
  /\ step_body Example.sound step (start Example.img2) = (Ok tt, start Example.img2)
  /\ step_block Example.sound 0 step
     = nl +:+ "# Step " +:+ "1" +:+ ": " +:+ "Perspective Transform" +:+ nl.
Proof.
  split; [cbn; tauto|].
  apply (unimplemented_step_identity_and_comment Example.sound
           (Example.step "perspective" "Perspective Transform" DEFAULT_PARAMS)
           0 (start Example.img2)).
  cbn; tauto.
Defined.

(** C4 as stated fails: the perspective step writes text into the script. *)
Lemma unimplemented_step_leaves_text :
  step_block Example.sound 0
    (Example.step "perspective" "Perspective Transform" DEFAULT_PARAMS)
  <> EmptyString.
Proof. by vm_compute. Qed.

(** ** Brightness and contrast *)



(** ** Blur kernel sizes: executor and synthesizer *)






(** ** Simple threshold *)

Lemma depth_channels_1 (m : Mat) :
  Z.shiftr (Cv.CV_MAKETYPE (Cv.depth m) 1) 3 + 1 = 1.
Proof.
  unfold Cv.CV_MAKETYPE, Cv.depth. cbn [Z.sub Z.shiftl Z.pos_sub].
  rewrite Z.add_0_r.
  assert (Hl : Z.land (mat_type m) 7 = mat_type m mod 8)
    by exact (Z.land_ones (mat_type m) 3 ltac:(lia)).
  pose proof (Z.mod_pos_bound (mat_type m) 8 ltac:(lia)) as Hb.
  rewrite Hl, Z.shiftr_div_pow2 by lia.
  rewrite Z.div_small; [reflexivity|]. change (2 ^ 3) with 8. lia.
Qed.

Lemma depth_maketype_1 (t : Z) :
  Z.land (Cv.CV_MAKETYPE (Z.land t 7) 1) 7 = Z.land t 7.
Proof.
  unfold Cv.CV_MAKETYPE. cbn [Z.sub Z.shiftl Z.pos_sub].
  now rewrite Z.add_0_r, <- Z.land_assoc.
Qed.

(** What a simple-threshold step does to an RGBA buffer, for an effective
    threshold [t] (an integer from 0 to 255): white where the gray value
    exceeds [t], black elsewhere, alpha opaque. *)
Lemma simple_thresh_effect (H : Host) (step : TransformStep) (r : Run) (t : Z) :
  type step = "simple_thresh" ->
  floorZ (or_else (num (params step) "threshold") 128) = t ->
  Cv.channels (img (mat r)) = 4 ->
  after (step_body H step r)
  = Some {| rows := rows (img (mat r));
            cols := cols (img (mat r));
            mat_type := Cv.CV_MAKETYPE (Cv.depth (img (mat r))) 4;
            data := map (map (fun px => if t <? gray H px
                                        then [255; 255; 255; 255]
                                        else [0; 0; 0; 255]))
                        (data (img (mat r))) |}.
Proof.
  intros Ht Hthr Hch. unfold step_body. rewrite Ht. cbn [String.eqb Ascii.eqb Bool.eqb].
  cbn -[Cv.cvtColor_RGBA2GRAY Cv.cvtColor_GRAY2RGBA Cv.threshold_binary alloc release].
  unfold mbind, M_bind, new, get_mat, lift, write_mat, delete, with_objs.
  cbn -[Cv.cvtColor_RGBA2GRAY Cv.cvtColor_GRAY2RGBA Cv.threshold_binary release].
  unfold Cv.cvtColor_RGBA2GRAY. rewrite Hch. cbn [Z.eqb orb Pos.eqb].
  unfold Cv.cvtColor_GRAY2RGBA, Cv.channels, Cv.threshold_binary.
  cbn [Cv.map_pixels mat_type rows cols data].
  rewrite depth_channels_1. cbn [Z.eqb Pos.eqb after img mat].
  unfold Cv.depth at 1. cbn [mat_type]. unfold Cv.depth.
  unfold Cv.map_pixels. cbn [rows cols mat_type data].
  rewrite depth_maketype_1. f_equal. f_equal.
  rewrite !map_map. apply map_ext. intros row.
  rewrite !map_map. apply map_ext. intros px.
  rewrite Hthr. cbn [map nth]. fold (gray H px).
  now destruct (t <? gray H px).
Qed.

(** C6, as the code has it.  On an RGBA buffer, a simple-threshold step with
    the threshold parameter 255 gives an all-black result.  With the
    threshold parameter 0 the result is white at every pixel whose gray value
    exceeds 128 and black at every pixel whose gray value is 0 (the
    comparison of [THRESH_BINARY] is strict): it is not all-white on every
    buffer. *)
Theorem simple_threshold_extremes (H : Host) (step : TransformStep) (r : Run) :
  type step = "simple_thresh" ->
  Cv.channels (img (mat r)) = 4 ->
  let m := img (mat r) in
  let result (f : list Z -> list Z) :=
    Some {| rows := rows m; cols := cols m;
            mat_type := Cv.CV_MAKETYPE (Cv.depth m) 4;
            data := map (map f) (data m) |} in
  (num (params step) "threshold" = Some 255%float ->
     after (step_body H step r) = result (fun _ => [0; 0; 0; 255]))
  /\ (num (params step) "threshold" = Some 0%float ->
      exists f,
        after (step_body H step r) = result f
        /\ (forall px, gray H px = 0 -> f px = [0; 0; 0; 255])
        /\ (forall px, 128 < gray H px -> f px = [255; 255; 255; 255])).
Proof.
  intros Ht Hch m result. split.
  - intros Hp.
    rewrite (simple_thresh_effect H step r 255 Ht); [|now rewrite Hp|exact Hch].
    unfold result. do 2 f_equal.
    apply map_ext. intros row. apply map_ext. intros px.
    assert (gray H px <= 255) by (unfold gray, Cv.saturate_u8; lia).
    destruct (255 <? gray H px) eqn:E; [apply Z.ltb_lt in E; lia | reflexivity].
  - intros Hp.
    exists (fun px => if 128 <? gray H px
                      then [255; 255; 255; 255] else [0; 0; 0; 255]).
    split; [|split].
    + apply (simple_thresh_effect H step r 128 Ht); [|exact Hch]. now rewrite Hp.
    + intros px Hg. now rewrite Hg.
    + intros px Hg. apply Z.ltb_lt in Hg. now rewrite Hg.
Qed.

Lemma simple_threshold_extremes_witness :
  let step := Example.step "simple_thresh" "Simple Threshold"
                (<["threshold" := VNum 255]> DEFAULT_PARAMS) in
  type step = "simple_thresh"
  /\ Cv.channels (img (mat (start Example.img2))) = 4
  /\ after (step_body Example.sound step (start Example.img2))
     = Some {| rows := 2; cols := 2; mat_type := Cv.CV_8UC4;
               data := [[[0; 0; 0; 255]; [0; 0; 0; 255]];
                        [[0; 0; 0; 255]; [0; 0; 0; 255]]] |}.
Proof.
  split; [reflexivity|]. split; [reflexivity|].
  exact (proj1 (simple_threshold_extremes Example.sound
                  (Example.step "simple_thresh" "Simple Threshold"
                     (<["threshold" := VNum 255]> DEFAULT_PARAMS))
                  (start Example.img2) eq_refl eq_refl) eq_refl).
Defined.

(** C6 as stated fails: with the threshold parameter 0, the black pixel, the
    red pixel and the dark pixel of the example image come out black. *)
Lemma threshold_zero_not_all_white :
  after (step_body Example.sound
           (Example.step "simple_thresh" "Simple Threshold"
              (<["threshold" := VNum 0]> DEFAULT_PARAMS))
           (start Example.img2))
  = Some {| rows := 2; cols := 2; mat_type := Cv.CV_8UC4;
            data := [[[0; 0; 0; 255]; [255; 255; 255; 255]];
                     [[0; 0; 0; 255]; [0; 0; 0; 255]]] |}.
Proof. by vm_compute. Qed.

(** ** Gamma correction *)

Lemma mantissa_bound (s : bool) (m : positive) (e : Z) :
  valid_binary (S754_finite s m e) = true -> Zpos m < 2 ^ 53.
Proof.
  cbn [valid_binary]. unfold bounded, canonical_mantissa. intros Hb.
  apply andb_true_iff in Hb as [Hc _]. apply Z.eqb_eq in Hc.
  assert (Hd : Zpos (digits2_pos m) <= 53)
    by (unfold fexp, emin, prec, emax in Hc; lia).
  rewrite digits2_size in Hd.
  pose proof (Pos.size_gt m) as Hgt.
  assert (Hpow : Zpos (2 ^ Pos.size m) = 2 ^ Zpos (Pos.size m))
    by (now rewrite Pos2Z.inj_pow).
  assert (2 ^ Zpos (Pos.size m) <= 2 ^ 53) by (apply Z.pow_le_mono_r; lia).
  lia.
Qed.

(** A Number in [0, 256) is stored into a [Uint8Array] as its floor. *)
Lemma ToUint8_floor (v : Number) :
  (0 <=? v)%float = true -> (v <? 256)%float = true -> ToUint8 v = floorZ v.
Proof.
  rewrite FloatAxioms.leb_spec, FloatAxioms.ltb_spec.
  unfold ToUint8, truncZ, floorZ.
  pose proof (Prim2SF_valid v) as Hv.
  change (Prim2SF 0) with (S754_zero false).
  change (Prim2SF 256) with (S754_finite false 4503599627370496 (-44)).
  destruct (Prim2SF v) as [s|s| |s m e]; try done.
  unfold SFleb, SFltb, SFcompare. destruct s; [done|]. intros _ Hlt.
  pose proof (mantissa_bound false m e Hv) as Hm.
  assert (Hrange : 0 <= Z.shiftl (Zpos m) e < 256).
  { split; [apply Z.shiftl_nonneg; lia|].
    destruct (e ?= -44) eqn:Ec; [| |done].
    - apply Z.compare_eq in Ec. subst e.
      assert (Hm52 : Zpos m < 4503599627370496).
      { destruct (PosDef.Pos.compare_cont Eq m 4503599627370496) eqn:Em;
          try discriminate Hlt.
        apply Pos2Z.pos_lt_pos. exact Em. }
      clear Hlt. rewrite Z.shiftl_div_pow2 by lia.
      apply Z.div_lt_upper_bound; lia.
    - change (e < -44) in Ec.
      rewrite Z.shiftl_div_pow2 by lia.
      apply Z.div_lt_upper_bound; [lia|].
      assert (2 ^ 45 <= 2 ^ (- e)) by (apply Z.pow_le_mono_r; lia).
      lia. }
  apply Z.mod_small. exact Hrange.
Qed.

Lemma gamma_lut_nth (H : Host) (gamma : Number) (i : nat) :
  (i < 256)%nat ->
  nth i (gamma_lut H gamma) 0
  = ToUint8 (Math_pow (pow_approx H) (of_Z (Z.of_nat i) / 255) gamma * 255).
Proof.
  intros Hi. unfold gamma_lut.
  rewrite nth_lookup, list_lookup_fmap, lookup_seq_lt by exact Hi.
  reflexivity.
Qed.

(** With the exponent 1 the table is the identity. *)
Lemma gamma_lut_one (H : Host) : gamma_lut H 1 = map Z.of_nat (seq 0 256).
Proof. by vm_compute. Qed.

Lemma identity_table (v : Z) :
  0 <= v <= 255 -> nth (Z.to_nat v) (map Z.of_nat (seq 0 256)) 0 = v.
Proof.
  intros Hv.
  rewrite nth_lookup, list_lookup_fmap, lookup_seq_lt by lia.
  cbn. lia.
Qed.

Lemma type_code_parts (t : Z) :
  Z.land t 7 + Z.shiftl (Z.shiftr t 3) 3 = t.
Proof.
  assert (Hl : Z.land t 7 = t mod 8) by exact (Z.land_ones t 3 ltac:(lia)).
  rewrite Hl, Z.shiftr_div_pow2, Z.shiftl_mul_pow2 by lia.
  change (2 ^ 3) with 8. pose proof (Z.div_mod t 8 ltac:(lia)). lia.
Qed.

Lemma map_nth_seq (px : list Z) (f : Z -> Z) :
  Forall (fun v => f v = v) px ->
  map (fun c => f (nth c px 0)) (seq 0 (length px)) = px.
Proof.
  intros Hf. apply list_eq. intros k.
  rewrite list_lookup_fmap.
  destruct (px !! k) as [v|] eqn:Ek.
  - rewrite lookup_seq_lt by (now apply lookup_lt_Some in Ek).
    cbn. rewrite nth_lookup, Ek. cbn. f_equal.
    exact (proj1 (Forall_lookup _ _) Hf k v Ek).
  - rewrite lookup_seq_ge by (now apply lookup_ge_None in Ek). reflexivity.
Qed.

(** Splitting a valid 8-bit matrix, passing every plane through a table that
    fixes every byte, and merging gives the matrix back. *)
Lemma merge_LUT_split (table : list Z) (m : Mat) :
  valid_8u m ->
  (forall v, 0 <= v <= 255 -> nth (Z.to_nat v) table 0 = v) ->
  Cv.merge (map (Cv.LUT table) (Cv.split m)) = m.
Proof.
  intros [Ht Hpx] Htab. unfold Cv.split. rewrite map_map.
  assert (Hch : 1 <= Cv.channels m).
  { unfold Cv.channels. pose proof (Z.shiftr_nonneg (mat_type m) 3). lia. }
  destruct (Z.to_nat (Cv.channels m)) as [|n] eqn:En; [lia|].
  set (plane := fun x : nat =>
         Cv.LUT table (Cv.map_pixels (fun px => [nth x px 0])
                                     (Cv.CV_MAKETYPE (Cv.depth m) 1) m)).
  remember (map plane (seq 0 (S n))) as planes eqn:Hpl.
  assert (Hp0 : hd Cv.empty planes = plane 0%nat) by (subst planes; reflexivity).
  destruct planes as [|p0 ps]; [discriminate Hpl|].
  cbn [hd] in Hp0. subst p0. unfold Cv.merge. rewrite Hpl.
  rewrite length_map, length_seq. clear Hpl ps. subst plane.
  unfold Cv.LUT, Cv.map_pixels, Cv.depth.
  cbn [rows cols mat_type data].
  destruct m as [r c t d]. cbn [rows cols mat_type data] in *.
  f_equal.
  - rewrite depth_maketype_1. unfold Cv.CV_MAKETYPE, Cv.channels in *.
    cbn [mat_type] in *.
    replace (Z.of_nat (S n) - 1) with (Z.shiftr t 3) by lia.
    apply type_code_parts.
  - apply list_eq. intros i.
    rewrite list_lookup_imap, !list_lookup_fmap.
    destruct (d !! i) as [row|] eqn:Ei; [|reflexivity].
    cbn [fmap option_fmap option_map].
    f_equal. apply list_eq. intros j.
    rewrite list_lookup_imap, !list_lookup_fmap.
    destruct (row !! j) as [px|] eqn:Ej; [|reflexivity].
    cbn [fmap option_fmap option_map].
    f_equal.
    pose proof (proj1 (Forall_lookup _ _) Hpx i row Ei) as Hrow.
    pose proof (proj1 (Forall_lookup _ _) Hrow j px Ej) as [Hlen Hbytes].
    rewrite map_map.
    rewrite <- Hlen.
    etransitivity;
      [|apply (map_nth_seq px (fun v => nth (Z.to_nat v) table 0));
        eapply Forall_impl; [exact Hbytes|]; intros v Hv; now apply Htab].
    apply map_ext. intros ch. cbn [data].
    rewrite (nth_lookup _ i), !list_lookup_fmap, Ei. cbn.
    rewrite (nth_lookup _ j), !list_lookup_fmap, Ej. reflexivity.
Qed.

(** C8, as the code has it.  A gamma step fills a 256-entry table with
    [Math.pow(i / 255, gamma) * 255] stored as unsigned bytes; an entry is
    [floor((i/255)^gamma * 255)] whenever that value lies in [0, 256).  The
    step passes every channel plane of the buffer through the table and
    merges the planes again.  With gamma 1 (also the value taken when the
    key is missing) the table is the identity on 0..255 and a valid 8-bit
    buffer comes out unchanged. *)
Theorem gamma_step_table (H : Host) (step : TransformStep) (r : Run) :
  type step = "gamma" ->
  let gamma := nullish (num (params step) "gamma") 1 in
  let table := gamma_lut H gamma in
  let value (i : nat) :=
    (Math_pow (pow_approx H) (of_Z (Z.of_nat i) / 255) gamma * 255)%float in
  (forall i, (i < 256)%nat ->
     nth i table 0 = ToUint8 (value i)
     /\ ((0 <=? value i)%float = true -> (value i <? 256)%float = true ->
         nth i table 0 = floorZ (value i)))
  /\ after (step_body H step r)
     = Some (Cv.merge (map (Cv.LUT table) (Cv.split (img (mat r)))))
  /\ (gamma = 1%float ->
      table = map Z.of_nat (seq 0 256)
      /\ (valid_8u (img (mat r)) ->
          after (step_body H step r) = Some (img (mat r)))).
Proof.
  intros Ht gamma table value.
  assert (Hstep : after (step_body H step r)
                  = Some (Cv.merge (map (Cv.LUT table) (Cv.split (img (mat r)))))).
  { unfold step_body. rewrite Ht. reflexivity. }
  split; [|split; [exact Hstep|]].
  - intros i Hi.
    assert (Hnth : nth i table 0 = ToUint8 (value i))
      by (apply gamma_lut_nth; exact Hi).
    split; [exact Hnth|]. intros H0 H256. rewrite Hnth.
    now apply ToUint8_floor.
  - intros Hg.
    assert (Htab : table = map Z.of_nat (seq 0 256))
      by (unfold table; rewrite Hg; apply gamma_lut_one).
    split; [exact Htab|]. intros Hvalid. rewrite Hstep. f_equal.
    apply merge_LUT_split; [exact Hvalid|].
    intros v Hv. rewrite Htab. now apply identity_table.
Qed.

Lemma valid_8u_img2 : valid_8u Example.img2.
Proof.
  split; [by vm_compute|].
  repeat (apply Forall_cons; split); try apply Forall_nil;
    cbn; try split; try reflexivity; try lia.
  all: repeat (apply Forall_cons; split); try apply Forall_nil; lia.
Qed.

Lemma gamma_step_table_witness :
  let step := Example.step "gamma" "Gamma Correction" DEFAULT_PARAMS in
  type step = "gamma"
  /\ nth 200 (gamma_lut Example.sound 1) 0 = 200
  /\ after (step_body Example.sound step (start Example.img2)) = Some Example.img2.
Proof.
  split; [reflexivity|].
  destruct (gamma_step_table Example.sound
              (Example.step "gamma" "Gamma Correction" DEFAULT_PARAMS)
              (start Example.img2) eq_refl) as (_ & _ & Hone).
  destruct (Hone eq_refl) as [Htab Hid].
  split.
  - exact (f_equal (fun t => nth 200 t 0) Htab).
  - exact (Hid valid_8u_img2).
Defined.

(** C8 as stated fails: with gamma -1 the value for i = 0 is
    [Math.pow(0, -1) * 255], which is Infinity; its floor is Infinity, and
    the byte the table holds is 0. *)
Lemma gamma_table_entry_wraps :
  let v := (Math_pow (pow_approx Example.sound) (of_Z 0 / 255) (-1) * 255)%float in
  Math_floor v = infinity
  /\ nth 0 (gamma_lut Example.sound (-1)) 0 = 0
  /\ of_Z (nth 0 (gamma_lut Example.sound (-1)) 0) <> Math_floor v.
Proof.
  cbv zeta. split; [by vm_compute|]. split; [by vm_compute|].
  intros E. apply (f_equal is_infinity) in E. vm_compute in E. discriminate.
Qed.

(** ** Crop *)







(** ** The ledger of a run *)

Ltac decide_ids :=
  repeat match goal with
    | |- context [Nat.eqb ?a ?a] => rewrite (Nat.eqb_refl a)
    | |- context [Nat.eqb ?a ?b] => rewrite (proj2 (Nat.eqb_neq a b)) by lia
    end.

Ltac run_ops :=
  cbv beta iota zeta delta
    [mbind M_bind mret M_ret new delete get_mat set_mat write_mat push lift call
     throw try_catch_finally console_error with_objs alloc release rebind
     fst snd mat matsToRelease objs logged handle img next live peak deleted
     List.filter negb length].

Ltac step_cases :=
  repeat (match goal with
    | |- context [match ?x with Ok _ => _ | Throw _ => _ end] => destruct x eqn:?
    | |- context [if ?b then _ else _] => destruct b eqn:?
    | |- context [match ?x with Some _ => _ | None => _ end] => destruct x eqn:?
    | |- context [match ?x with [] => _ | _ :: _ => _ end] => destruct x eqn:?
    end; run_ops; decide_ids; run_ops).








(** ** A step that fails *)

(** The loop ends at the first step that throws; the steps after it are not
    run. *)
Lemma loop_stops_at_failure (H : Host) (before after_it : list TransformStep)
    (step : TransformStep) (r r1 r2 : Run) (err : string) :
  for_steps H before r = (None, r1) ->
  step_body H step r1 = (Throw err, r2) ->
  for_steps H (before ++ step :: after_it) r = (Some (step, err), r2).
Proof.
  revert r. induction before as [|s rest IH]; intros r Hbefore Hstep.
  - cbn in Hbefore. injection Hbefore as <-. cbn. now rewrite Hstep.
  - cbn [for_steps app] in *.
    destruct (step_body H s r) as [[[]|e] r']; [now apply IH | discriminate].
Qed.

(** When a step throws, an alert names the step, the console names its
    operation, and the run goes on after the loop: it encodes the buffer
    [mat] is bound to at that point and shows it as the processed image. *)
Lemma failed_run_publishes (H : Host) (w : Workbench) (src : Mat)
    (step : TransformStep) (err : string) (r : Run) :
  originalMat w = Some src ->
  cv w = true ->
  for_steps H (transformPipeline w) (start src) = (Some (step, err), r) ->
  let o := applyTransformPipeline H w in
  processed (images (state o)) = Some (matToDataUrl H (img (mat r)))
  /\ alerts o = ["Error in operation '" +:+ name step +:+ "': " +:+ err]
  /\ console o
     = logged r ++ ["Error in operation '" +:+ type step +:+ "': " +:+ err].
Proof.
  intros Hsrc Hcv Hloop. unfold applyTransformPipeline. rewrite Hsrc, Hcv.
  cbn [negb]. destruct (transformPipeline w) as [|s rest]; [discriminate Hloop|].
  rewrite Hloop. cbn. auto.
Qed.

(** C1, where the code departs from it.  The pipeline grayscale, crop, flip
    on the example image, with the crop at X = 100%: the rectangle leaves
    the image and [roi] throws.  The loop stops, the alert names the step
    and the console its operation; but the processed image is then set to
    the encoding of the buffer as the grayscale step left it.  The same
    happens in the pipeline grayscale, hsv when the colour conversion of the
    hsv step throws, and there the temporary the step created before the
    throw stays live after the run. *)
Lemma failed_step_still_publishes :
  let crop_out :=
    [Example.step "grayscale" "Grayscale" DEFAULT_PARAMS;
     Example.step "crop" "Crop" (<["cropX" := VNum 100]> DEFAULT_PARAMS);
     Example.step "flip" "Flip" DEFAULT_PARAMS] in
  let o := applyTransformPipeline Example.sound (Example.workbench crop_out) in
  let hsv_throws :=
    Example.host (fun p => match p with
                           | Cv.cvtColor Cv.COLOR_RGBA2HSV => true
                           | _ => false
                           end) in
  let o' := applyTransformPipeline hsv_throws
              (Example.workbench
                 [Example.step "grayscale" "Grayscale" DEFAULT_PARAMS;
                  Example.step "hsv" "Convert to HSV" DEFAULT_PARAMS]) in
  alerts o = ["Error in operation 'Crop': roi: rectangle outside the matrix"]
  /\ console o = ["Error in operation 'crop': roi: rectangle outside the matrix"]
  /\ processed (images (state o))
     = Some "2x2:0,0,0,255,200,200,200,255,76,76,76,255,18,18,18,255"
  /\ alerts o' = ["Error in operation 'Convert to HSV': cv exception"]
  /\ processed (images (state o'))
     = Some "2x2:0,0,0,255,200,200,200,255,76,76,76,255,18,18,18,255"
  /\ live (objects o') = [2%nat].
Proof. cbv zeta. repeat split; by vm_compute. Qed.

(** * Further properties *)

(** ** Reordering the pipeline *)

Lemma findIndex_none {A} (f : A -> bool) (l : list A) :
  Forall (fun x => f x = false) l -> findIndex f l = -1.
Proof.
  induction 1 as [|x l Hx _ IH]; [reflexivity|].
  cbn [findIndex]. now rewrite Hx, IH.
Qed.

Lemma findIndex_first {A} (f : A -> bool) (pre post : list A) (x : A) :
  Forall (fun y => f y = false) pre ->
  f x = true ->
  findIndex f (pre ++ x :: post) = Z.of_nat (length pre).
Proof.
  intros Hpre Hx. induction Hpre as [|y pre Hy _ IH]; cbn [findIndex app length].
  - now rewrite Hx.
  - rewrite Hy, IH. destruct (Z.of_nat (length pre) =? -1) eqn:E; lia.
Qed.

Lemma findIndex_split {A} (f : A -> bool) (l : list A) :
  Forall (fun x => f x = false) l
  \/ exists pre x post,
       l = pre ++ x :: post /\ Forall (fun y => f y = false) pre /\ f x = true.
Proof.
  induction l as [|y l IH]; [left; constructor|].
  destruct (f y) eqn:Hy.
  - right. exists [], y, l. repeat split; [constructor | exact Hy].
  - destruct IH as [Hall | (pre & x & post & -> & Hpre & Hx)].
    + left. now constructor.
    + right. exists (y :: pre), x, post. repeat split; [now constructor | exact Hx].
Qed.

Lemma setTransformPipeline_same (w : Workbench) (f : list TransformStep -> list TransformStep) :
  f (transformPipeline w) = transformPipeline w -> setTransformPipeline f w = w.
Proof. intros E. destruct w. unfold setTransformPipeline. cbn in *. now rewrite E. Qed.

Lemma other_id (i : string) (pre : list TransformStep) :
  Forall (fun s => id s <> i) pre ->
  Forall (fun s => (id s === i) = false) pre.
Proof. apply List.Forall_impl. intros s Hs. now apply String.eqb_neq. Qed.

(** The step at position [length pre] goes one place up. *)
Lemma move_up_at (i : string) (w : Workbench) (pre post : list TransformStep)
    (a b : TransformStep) :
  transformPipeline w = pre ++ a :: b :: post ->
  Forall (fun s => id s <> i) (pre ++ [a]) ->
  id b = i ->
  transformPipeline (moveTransformInPipeline i up w) = pre ++ b :: a :: post.
Proof.
  intros Hw Hpre Hb. unfold moveTransformInPipeline. cbn [setTransformPipeline transformPipeline].
  rewrite Hw.
  replace (pre ++ a :: b :: post) with ((pre ++ [a]) ++ b :: post)
    by (now rewrite <- app_assoc).
  rewrite (findIndex_first _ (pre ++ [a]) post b (other_id i _ Hpre))
    by (now apply String.eqb_eq).
  rewrite !length_app. cbn [length].
  destruct (Z.eqb_spec (Z.of_nat (length pre + 1)) (-1)); [lia|].
  destruct (Z.ltb_spec (Z.of_nat (length pre + 1) - 1) (0)); [lia|].
  destruct (Z.leb_spec (Z.of_nat (length pre + 1 + S (length post)))
                       (Z.of_nat (length pre + 1) - 1)); [lia|].
  cbn [orb].
  replace (Z.to_nat (Z.of_nat (length pre + 1))) with (length (pre ++ [a]))
    by (rewrite length_app; cbn [length]; lia).
  replace (Z.to_nat (Z.of_nat (length pre + 1) - 1)) with (length pre) by lia.
  unfold splice_out.
  rewrite drop_app_length. cbn [take].
  replace (S (length (pre ++ [a]))) with (length ((pre ++ [a]) ++ [b]))
    by (rewrite !length_app; cbn [length]; lia).
  replace ((pre ++ [a]) ++ b :: post) with (((pre ++ [a]) ++ [b]) ++ post) at 2
    by (now rewrite <- !app_assoc).
  rewrite drop_app_length.
  rewrite take_app_length.
  unfold splice_in.
  rewrite <- app_assoc. rewrite take_app_length, drop_app_length. reflexivity.
Qed.

(** The step at position [length pre] goes one place down. *)
Lemma move_down_at (i : string) (w : Workbench) (pre post : list TransformStep)
    (a b : TransformStep) :
  transformPipeline w = pre ++ a :: b :: post ->
  Forall (fun s => id s <> i) pre ->
  id a = i ->
  transformPipeline (moveTransformInPipeline i down w) = pre ++ b :: a :: post.
Proof.
  intros Hw Hpre Ha. unfold moveTransformInPipeline. cbn [setTransformPipeline transformPipeline].
  rewrite Hw.
  rewrite (findIndex_first _ pre (b :: post) a (other_id i _ Hpre))
    by (now apply String.eqb_eq).
  rewrite !length_app. cbn [length].
  destruct (Z.eqb_spec (Z.of_nat (length pre)) (-1)); [lia|].
  destruct (Z.ltb_spec (Z.of_nat (length pre) + 1) (0)); [lia|].
  destruct (Z.leb_spec (Z.of_nat (length pre + S (S (length post))))
                       (Z.of_nat (length pre) + 1)); [lia|].
  cbn [orb].
  rewrite Nat2Z.id.
  replace (Z.to_nat (Z.of_nat (length pre) + 1)) with (length (pre ++ [b]))
    by (rewrite length_app; cbn [length]; lia).
  unfold splice_out.
  rewrite drop_app_length. cbn [take].
  replace (S (length pre)) with (length (pre ++ [a]))
    by (rewrite length_app; cbn [length]; lia).
  replace (pre ++ a :: b :: post) with ((pre ++ [a]) ++ b :: post) at 2
    by (now rewrite <- app_assoc).
  rewrite drop_app_length, take_app_length.
  unfold splice_in.
  replace (pre ++ b :: post) with ((pre ++ [b]) ++ post)
    by (now rewrite <- app_assoc).
  rewrite take_app_length, drop_app_length.
  now rewrite <- app_assoc.
Qed.

(** X1.  A move exchanges the step with its neighbour and leaves every other
    step where it was. *)
Theorem move_swaps_neighbours (i : string) (w : Workbench)
    (pre post : list TransformStep) (a b : TransformStep) :
  transformPipeline w = pre ++ a :: b :: post ->
  Forall (fun s => id s <> i) pre ->
  (id a = i ->
     transformPipeline (moveTransformInPipeline i down w) = pre ++ b :: a :: post)
  /\ (id a <> i -> id b = i ->
        transformPipeline (moveTransformInPipeline i up w) = pre ++ b :: a :: post).
Proof.
  intros Hw Hpre. split.
  - intros Ha. now apply move_down_at.
  - intros Ha Hb. apply move_up_at; [exact Hw| |exact Hb].
    apply Forall_app. split; [exact Hpre|]. now repeat constructor.
Qed.

Lemma move_unknown (i : string) (d : Direction) (w : Workbench) :
  Forall (fun s => id s <> i) (transformPipeline w) ->
  moveTransformInPipeline i d w = w.
Proof.
  intros Hall. unfold moveTransformInPipeline. apply setTransformPipeline_same.
  now rewrite (findIndex_none _ _ (other_id i _ Hall)).
Qed.

Lemma move_first_up (i : string) (w : Workbench) (a : TransformStep)
    (rest : list TransformStep) :
  transformPipeline w = a :: rest -> id a = i ->
  moveTransformInPipeline i up w = w.
Proof.
  intros Hw Ha. unfold moveTransformInPipeline. apply setTransformPipeline_same.
  rewrite Hw. cbn [findIndex]. now rewrite (proj2 (String.eqb_eq _ _) Ha).
Qed.

Lemma move_last_down (i : string) (w : Workbench) (a : TransformStep)
    (pre : list TransformStep) :
  transformPipeline w = pre ++ [a] -> Forall (fun s => id s <> i) pre -> id a = i ->
  moveTransformInPipeline i down w = w.
Proof.
  intros Hw Hpre Ha. unfold moveTransformInPipeline. apply setTransformPipeline_same.
  rewrite Hw.
  rewrite (findIndex_first _ pre [] a (other_id i _ Hpre)) by (now apply String.eqb_eq).
  rewrite length_app. cbn [length].
  destruct (Z.eqb_spec (Z.of_nat (length pre)) (-1)); [lia|].
  destruct (Z.leb_spec (Z.of_nat (length pre + 1)) (Z.of_nat (length pre) + 1)); [|lia].
  now rewrite orb_true_r.
Qed.

(** X2.  A move that cannot be made changes nothing. *)
Theorem move_out_of_range_is_noop (i : string) (w : Workbench) :
  (forall d, Forall (fun s => id s <> i) (transformPipeline w) ->
             moveTransformInPipeline i d w = w)
  /\ (forall a rest, transformPipeline w = a :: rest -> id a = i ->
                     moveTransformInPipeline i up w = w)
  /\ (forall pre a, transformPipeline w = pre ++ [a] ->
                    Forall (fun s => id s <> i) pre -> id a = i ->
                    moveTransformInPipeline i down w = w).
Proof.
  split; [|split].
  - intros d. apply move_unknown.
  - intros a rest. apply move_first_up.
  - intros pre a. apply move_last_down.
Qed.

(** A move changes nothing or exchanges two neighbours. *)
Lemma move_cases (i : string) (d : Direction) (w : Workbench) :
  moveTransformInPipeline i d w = w
  \/ exists pre a b post,
       transformPipeline w = pre ++ a :: b :: post
       /\ transformPipeline (moveTransformInPipeline i d w) = pre ++ b :: a :: post.
Proof.
  destruct (findIndex_split (fun s => id s === i) (transformPipeline w))
    as [Hall | (pre & x & post & Hw & Hpre & Hx)].
  - left. apply move_unknown.
    revert Hall. apply List.Forall_impl. intros s Hs. now apply String.eqb_neq.
  - apply String.eqb_eq in Hx.
    assert (Hpre' : Forall (fun s => id s <> i) pre).
    { revert Hpre. apply List.Forall_impl. intros s Hs. now apply String.eqb_neq. }
    destruct d.
    + destruct (rev pre) as [|a erp] eqn:Hrev.
      * assert (pre = []) as -> by (now apply (f_equal (@rev _)) in Hrev;
                                     rewrite rev_involutive in Hrev).
        left. exact (move_first_up i w x post Hw Hx).
      * assert (Hp : pre = rev erp ++ [a]).
        { apply (f_equal (@rev _)) in Hrev. now rewrite rev_involutive in Hrev. }
        subst pre. rewrite <- app_assoc in Hw. cbn [app] in Hw.
        right. exists (rev erp), a, x, post. split; [exact Hw|].
        exact (move_up_at i w (rev erp) post a x Hw Hpre' Hx).
    + destruct post as [|b post].
      * left. exact (move_last_down i w x pre Hw Hpre' Hx).
      * right. exists pre, x, b, post. split; [exact Hw|].
        exact (move_down_at i w pre post x b Hw Hpre' Hx).
Qed.

(** X3.  Whatever the identifier and the direction, the pipeline after a move
    is a rearrangement of the pipeline before: no step is lost, none is
    added, and the pipeline keeps its length. *)
Theorem move_is_permutation (i : string) (d : Direction) (w : Workbench) :
  transformPipeline (moveTransformInPipeline i d w) ≡ₚ transformPipeline w
  /\ length (transformPipeline (moveTransformInPipeline i d w))
     = length (transformPipeline w).
Proof.
  assert (Hperm : transformPipeline (moveTransformInPipeline i d w)
                  ≡ₚ transformPipeline w).
  { destruct (move_cases i d w) as [-> | (pre & a & b & post & Hw & ->)];
      [reflexivity|].
    rewrite Hw. apply Permutation_app_head. apply perm_swap. }
  split; [exact Hperm|]. now apply Permutation_length.
Qed.

(** X4.  Moving a step up and then down again, or down and then up again,
    gives back the pipeline. *)
Theorem move_there_and_back (i : string) (w : Workbench)
    (pre post : list TransformStep) (a b : TransformStep) :
  transformPipeline w = pre ++ a :: b :: post ->
  Forall (fun s => id s <> i) pre ->
  (id a <> i -> id b = i ->
     moveTransformInPipeline i down (moveTransformInPipeline i up w) = w)
  /\ (id a = i -> id b <> i ->
        moveTransformInPipeline i up (moveTransformInPipeline i down w) = w).
Proof.
  intros Hw Hpre.
  assert (Hwb : forall w1 w2 : Workbench,
             transformPipeline w1 = transformPipeline w2 ->
             images w1 = images w2 -> selectedCategory w1 = selectedCategory w2 ->
             selectedOperation w1 = selectedOperation w2 ->
             transformParams w1 = transformParams w2 ->
             originalMat w1 = originalMat w2 -> cv w1 = cv w2 -> w1 = w2).
  { intros [] []; cbn; intros; now subst. }
  split.
  - intros Ha Hb. apply Hwb; try reflexivity.
    assert (Hup : transformPipeline (moveTransformInPipeline i up w)
                  = pre ++ b :: a :: post).
    { apply move_up_at; [exact Hw| |exact Hb].
      apply Forall_app. split; [exact Hpre|]. now repeat constructor. }
    rewrite (move_down_at i _ pre post b a Hup Hpre Hb). now rewrite Hw.
  - intros Ha Hb. apply Hwb; try reflexivity.
    pose proof (move_down_at i w pre post a b Hw Hpre Ha) as Hdown.
    rewrite (move_up_at i _ pre post b a Hdown); [now rewrite Hw| |exact Ha].
    apply Forall_app. split; [exact Hpre|]. now repeat constructor.
Qed.

(** ** Sessions *)

(** A run writes the processed image and the intermediate steps, and nothing
    else of the state. *)
Lemma run_frame (H : Host) (w : Workbench) :
  let s := state (applyTransformPipeline H w) in
  transformPipeline s = transformPipeline w
  /\ selectedCategory s = selectedCategory w
  /\ selectedOperation s = selectedOperation w
  /\ transformParams s = transformParams w
  /\ originalMat s = originalMat w
  /\ cv s = cv w
  /\ original (images s) = original (images w)
  /\ (intermediateSteps (images w) = [] -> intermediateSteps (images s) = []).
Proof.
  unfold applyTransformPipeline.
  destruct (originalMat w) as [src|] eqn:Hsrc; [|cbn; now rewrite Hsrc].
  destruct (cv w) eqn:Hcv; cbn [negb]; [|cbn; now rewrite Hsrc, Hcv].
  destruct (transformPipeline w) as [|step rest] eqn:Hpl;
    [cbn; now rewrite Hsrc, Hcv, Hpl|].
  destruct (for_steps H (step :: rest) (start src)) as [[[fstep err]|] r];
    cbn; now rewrite Hsrc, Hcv, Hpl.
Qed.

Lemma operation_change_frame (v : string) (w : Workbench) :
  let s := onOperationChange v w in
  transformPipeline s = transformPipeline w
  /\ images s = images w
  /\ originalMat s = originalMat w
  /\ cv s = cv w
  /\ selectedCategory s = selectedCategory w
  /\ selectedOperation s = v.
Proof.
  unfold onOperationChange. destruct (currentCategory w) as [cat|]; [|now cbn].
  destruct (List.find _ (operations cat)); now cbn.
Qed.

Lemma reset_frame (H : Host) (w : Workbench) :
  let s := handleReset H w in
  transformPipeline s = []
  /\ cv s = cv w
  /\ original (images s) = original (images w)
  /\ processed (images s) = None
  /\ selectedCategory s = EmptyString
  /\ selectedOperation s = EmptyString
  /\ transformParams s = ∅.
Proof.
  unfold handleReset. destruct (cv w) eqn:Hcv; [|cbn; now rewrite Hcv].
  destruct (original (images w)) as [url|] eqn:Hurl; [|cbn; now rewrite Hcv, Hurl].
  destruct (url === EmptyString); cbn; now rewrite Hcv, Hurl.
Qed.

Lemma current_operation_in_catalog (w : Workbench) (o : Operation) :
  currentOperation w = Some o ->
  value o = selectedOperation w
  /\ exists cat, In cat TRANSFORM_CATEGORIES /\ In o (operations cat)
                 /\ category cat = selectedCategory w.
Proof.
  unfold currentOperation, currentCategory.
  destruct (List.find _ TRANSFORM_CATEGORIES) as [cat|] eqn:Hcat; [|discriminate].
  intros Ho. apply find_some in Hcat as [Hin Hc]. apply find_some in Ho as [Hino Hv].
  apply String.eqb_eq in Hc, Hv. split; [exact Hv|]. now exists cat.
Qed.

(** What every state of a session satisfies. *)
Lemma reachable_inv (H : Host) (w : Workbench) :
  reachable H w ->
  cv w = true
  /\ Forall from_catalog (transformPipeline w)
  /\ originalMat w = option_map (dataUrlToMat H) (original (images w))
  /\ intermediateSteps (images w) = [].
Proof.
  induction 1 as [|e w Hw (Hcv & Hcat & Hsrc & Hint) Hoff];
    [repeat split; constructor|].
  destruct e; cbn [dispatch].
  - (* Upload *)
    unfold handleImageUpload. rewrite Hcv. cbn. repeat split; [exact Hcv|constructor].
  - (* ChooseCategory *)
    cbn. now repeat split.
  - (* ChooseOperation *)
    destruct (operation_change_frame v w) as (-> & -> & -> & -> & _). now repeat split.
  - (* MoveSlider *)
    cbn. now repeat split.
  - (* ClickAdd *)
    unfold onClickAddToPipeline.
    destruct (currentOperation w) as [o|] eqn:Ho; [|now repeat split].
    destruct (selectedOperation w === EmptyString); [now repeat split|].
    cbn. repeat split; [exact Hcv| |exact Hsrc|exact Hint].
    apply Forall_app. split; [exact Hcat|]. constructor; [|constructor].
    apply current_operation_in_catalog in Ho as (Hv & cat & Hin & Hino & _).
    split; [reflexivity|]. exists cat, o. cbn. now repeat split.
  - (* ClickRemove *)
    cbn. repeat split; [exact Hcv| |exact Hsrc|exact Hint].
    rewrite List.Forall_forall in *. intros s Hs.
    apply List.filter_In in Hs as [Hs _]. now apply Hcat.
  - (* ClickMove *)
    destruct (move_cases i d w) as [-> | (pre & a & b & post & Hpl & Hmv)];
      [now repeat split|].
    repeat split; [exact Hcv| |exact Hsrc|exact Hint].
    rewrite Hmv. rewrite Hpl in Hcat.
    apply Forall_app in Hcat as [Hpre Hrest].
    inversion Hrest as [|? ? Ha Hrest']; subst.
    inversion Hrest' as [|? ? Hb Hpost]; subst.
    apply Forall_app. split; [exact Hpre|].
    constructor; [exact Hb|]. constructor; [exact Ha | exact Hpost].
  - (* ClickApply *)
    destruct (run_frame H w) as (-> & _ & _ & _ & -> & -> & -> & Hkeep).
    repeat split; auto.
  - (* ClickReset *)
    destruct (reset_frame H w) as (-> & -> & Ho & _).
    repeat split; [exact Hcv|constructor| |].
    + rewrite Ho. unfold handleReset. rewrite Hcv.
      destruct (original (images w)) as [url|] eqn:Hurl; [|exact Hsrc].
      destruct (url === EmptyString); [exact Hsrc | reflexivity].
    + unfold handleReset. destruct (cv w); [|reflexivity].
      destruct (original (images w)) as [url|]; [|reflexivity].
      now destruct (url === EmptyString).
Qed.

(** ** Appending, removing, choosing *)

Lemma catalog_value_not_empty (w : Workbench) (o : Operation) :
  currentOperation w = Some o -> (selectedOperation w === EmptyString) = false.
Proof.
  intros Ho. apply current_operation_in_catalog in Ho as (Hv & cat & Hc & Ho & _).
  rewrite <- Hv. clear Hv.
  cbn [In TRANSFORM_CATEGORIES] in Hc.
  repeat (destruct Hc as [<- | Hc];
          [cbn [In operations] in Ho;
           repeat (destruct Ho as [<- | Ho]; [reflexivity|]); destruct Ho|]).
  destruct Hc.
Qed.

(** X5.  Appending a step under an identifier no step has yet and removing
    that identifier again gives back the pipeline; of the rest of the state
    only the selected operation has changed: it is cleared. *)
Theorem append_then_remove (fresh : string) (w : Workbench) (o : Operation) :
  currentOperation w = Some o ->
  Forall (fun step => id step <> fresh) (transformPipeline w) ->
  removeTransformFromPipeline fresh (onClickAddToPipeline fresh w)
  = setSelectedOperation EmptyString w.
Proof.
  intros Ho Hfresh. unfold onClickAddToPipeline. rewrite Ho.
  rewrite (catalog_value_not_empty w o Ho).
  unfold removeTransformFromPipeline, setTransformPipeline, setSelectedOperation.
  cbn [transformPipeline images selectedCategory selectedOperation transformParams
       originalMat cv].
  f_equal. rewrite List.filter_app. cbn [List.filter id].
  rewrite String.eqb_refl. cbn [negb]. rewrite app_nil_r.
  induction Hfresh as [|s l Hs _ IH]; [reflexivity|].
  cbn [List.filter]. apply String.eqb_neq in Hs. rewrite Hs. cbn [negb].
  now rewrite IH.
Qed.

Lemma lookup_fold_insert (g : string -> Value) (ps : list string)
    (acc : TransformParams) (key : string) :
  fold_left (fun (d : TransformParams) param => <[param := g param]> d) ps acc !! key
  = if bool_decide (key ∈ ps) then Some (g key) else acc !! key.
Proof.
  revert acc. induction ps as [|p ps IH]; intros acc; cbn [fold_left].
  - rewrite bool_decide_eq_false_2; [reflexivity | apply not_elem_of_nil].
  - rewrite IH. destruct (bool_decide (key ∈ ps)) eqn:Hin.
    + apply bool_decide_eq_true in Hin.
      rewrite bool_decide_eq_true_2; [reflexivity | now apply list_elem_of_further].
    + apply bool_decide_eq_false in Hin.
      destruct (decide (p = key)) as [->|Hne].
      * rewrite lookup_insert_eq.
        rewrite bool_decide_eq_true_2; [reflexivity | apply list_elem_of_here].
      * rewrite lookup_insert_ne by exact Hne.
        rewrite bool_decide_eq_false_2; [reflexivity|].
        intros Hk. apply elem_of_cons in Hk as [->|Hk]; [now apply Hne | now apply Hin].
Qed.

(** X6.  Choosing an operation of the current category replaces the control
    values: they get exactly the operation's parameter keys, each with its
    value in the static defaults, or the number 0 when the defaults lack the
    key.  A value that is not an operation of the current category leaves
    the control values as they were. *)
Theorem operation_choice_sets_controls (v : string) (w : Workbench) :
  selectedOperation (onOperationChange v w) = v
  /\ (forall cat o key,
        currentCategory w = Some cat ->
        List.find (fun o => value o === v) (operations cat) = Some o ->
        transformParams (onOperationChange v w) !! key
        = if bool_decide (key ∈ op_params o)
          then Some match DEFAULT_PARAMS !! key with
                    | Some x => x
                    | None => VNum 0
                    end
          else None)
  /\ ((forall cat, currentCategory w = Some cat ->
                   List.find (fun o => value o === v) (operations cat) = None) ->
      transformParams (onOperationChange v w) = transformParams w).
Proof.
  split; [|split].
  - now destruct (operation_change_frame v w) as (_ & _ & _ & _ & _ & ->).
  - intros cat o key Hcat Ho. unfold onOperationChange. rewrite Hcat, Ho.
    cbn [setTransformParams transformParams].
    rewrite (lookup_fold_insert
               (fun param => match DEFAULT_PARAMS !! param with
                             | Some x => x
                             | None => VNum 0
                             end)).
    now destruct (bool_decide (key ∈ op_params o)).
  - intros Hnone. unfold onOperationChange.
    destruct (currentCategory w) as [cat|] eqn:Hcat; [|reflexivity].
    now rewrite (Hnone cat eq_refl).
Qed.

(** X7.  In every state of a session, every step of the pipeline is an
    operation of the catalog under the label the catalog gives it, and its
    parameters are the static defaults: no event changes a step once it is
    appended. *)
Theorem session_steps_from_catalog (H : Host) (w : Workbench) (step : TransformStep) :
  reachable H w ->
  In step (transformPipeline w) ->
  params step = DEFAULT_PARAMS
  /\ In (type step, name step)
        (flat_map (fun cat => map (fun o => (value o, label o)) (operations cat))
                  TRANSFORM_CATEGORIES).
Proof.
  intros Hw Hin. destruct (reachable_inv H w Hw) as (_ & Hcat & _).
  rewrite List.Forall_forall in Hcat.
  destruct (Hcat step Hin) as (Hp & cat & o & Hc & Ho & Ht & Hn).
  split; [exact Hp|].
  apply in_flat_map. exists cat. split; [exact Hc|].
  apply in_map_iff. exists o. split; [|exact Ho]. now rewrite Ht, Hn.
Qed.



(** X10.  A gamma step of a session's pipeline is the identity: the step has no
    [gamma] key, the exponent is 1, and a valid 8-bit buffer comes out as it
    went in. *)
Theorem session_gamma_step_is_identity (H : Host) (w : Workbench)
    (step : TransformStep) (r : Run) :
  reachable H w ->
  In step (transformPipeline w) ->
  type step = "gamma" ->
  valid_8u (img (mat r)) ->
  after (step_body H step r) = Some (img (mat r)).
Proof.
  intros Hw Hin Ht Hvalid. destruct (reachable_inv H w Hw) as (_ & Hcat & _).
  rewrite List.Forall_forall in Hcat. destruct (Hcat step Hin) as [Hp _].
  unfold step_body. rewrite Ht, Hp. cbn [String.eqb Ascii.eqb Bool.eqb orb].
  change (nullish (num DEFAULT_PARAMS "gamma") 1) with 1%float.
  rewrite gamma_lut_one.
  cbv beta iota zeta delta [mbind M_bind mret M_ret new delete get_mat write_mat
                            with_objs alloc after fst snd mat img].
  f_equal. apply merge_LUT_split; [exact Hvalid|].
  intros v Hv. now apply identity_table.
Qed.

Lemma catalog_values :
  map (fun p => fst p)
      (flat_map (fun cat => map (fun o => (value o, label o)) (operations cat))
                TRANSFORM_CATEGORIES)
  = ["grayscale"; "resize"; "crop"; "flip"; "rotate";
     "hsv"; "lab"; "ycrcb"; "hed"; "cmyk";
     "brightness"; "contrast"; "gamma"; "hist_eq";
     "gaussian_blur"; "median_blur"; "bilateral"; "nl_means";
     "canny"; "sobel"; "laplacian";
     "simple_thresh"; "adaptive_thresh"; "otsu";
     "erode"; "dilate"; "open"; "close";
     "translate"; "perspective"; "affine";
     "add_weighted";
     "find_contours"; "draw_text"; "feature_detect"].
Proof. reflexivity. Qed.

(** X11.  In every session the exported script has code for a step only when
    the step is a contrast, brightness or crop step; the synthesizer's cases
    for blur, threshold and sharpen are never taken, because no control
    builds a step of these types. *)
Theorem session_script_code (H : Host) (w : Workbench) (step : TransformStep) :
  reachable H w ->
  In step (transformPipeline w) ->
  ~ In (type step) ["blur"; "threshold"; "sharpen"]
  /\ (step_code H step = EmptyString
      <-> ~ In (type step) ["contrast"; "brightness"; "crop"]).
Proof.
  intros Hw Hin. destruct (reachable_inv H w Hw) as (_ & Hcat & _).
  rewrite List.Forall_forall in Hcat.
  destruct (Hcat step Hin) as (_ & cat & o & Hc & Ho & Ht & _).
  assert (Hval : In (type step)
                   (map (fun p => fst p)
                      (flat_map (fun cat => map (fun o => (value o, label o))
                                              (operations cat))
                                TRANSFORM_CATEGORIES))).
  { apply in_map_iff. exists (value o, label o). split; [now rewrite Ht|].
    apply in_flat_map. exists cat. split; [exact Hc|].
    apply in_map_iff. now exists o. }
  rewrite catalog_values in Hval. unfold step_code.
  cbn [In] in *.
  repeat (destruct Hval as [<- | Hval];
          [cbn [String.eqb Ascii.eqb Bool.eqb];
           split; [intros Hf; repeat (destruct Hf as [Hf|Hf]; [discriminate Hf|]);
                   exact Hf|];
           split; [first [ discriminate
                         | intros _ Hf;
                           repeat (destruct Hf as [Hf|Hf]; [discriminate Hf|]);
                           exact Hf ]
                  | first [ reflexivity
                          | intros Hf; exfalso; apply Hf; tauto ]]|]).
  destruct Hval.
Qed.

(** ** Runs: composition and failure *)

(** X12.  The loop over a pipeline [p ++ q] is the loop over [p] followed,
    when no step of [p] threw, by the loop over [q] from the variables [p]
    left; when a step of [p] threw, no step of [q] runs. *)
Theorem loop_of_concatenation (H : Host) (p q : list TransformStep) (r : Run) :
  for_steps H (p ++ q) r
  = match for_steps H p r with
    | (None, r') => for_steps H q r'
    | (Some failure, r') => (Some failure, r')
    end.
Proof.
  revert r. induction p as [|step p IH]; intros r; [reflexivity|].
  cbn [app for_steps].
  destruct (step_body H step r) as [[[]|err] r']; [apply IH | reflexivity].
Qed.

Ltac split_on_type step :=
  unfold step_body; cbv zeta; cbn [existsb];
  repeat (match goal with
          | |- context [String.eqb (type step) ?s] =>
              destruct (String.eqb (type step) s) eqn:?; cbv beta iota; cbn [orb]
          end).

(** A step that throws has not touched the variables [mat] and
    [matsToRelease]: every transform writes its result after the last call
    that can throw. *)
Lemma throw_keeps_mat (H : Host) (step : TransformStep) (r r' : Run) (err : string) :
  step_body H step r = (Throw err, r') ->
  mat r' = mat r /\ matsToRelease r' = matsToRelease r.
Proof.
  destruct r as [[h m] rel [n lv pk dl] lg].
  split_on_type step.
  all: run_ops.
  all: step_cases.
  all: intros E; first [discriminate E | injection E as <- <-; split; reflexivity].
Qed.

(** X13.  When a step throws, the image the run then shows as processed is
    the buffer as the steps before the failing one left it: the result of
    the pipeline cut off before the failing step.  It is also what the
    download button then saves. *)
Theorem failed_run_shows_prefix_result (H : Host) (w : Workbench) (src : Mat)
    (before rest : list TransformStep) (step : TransformStep)
    (r1 r2 : Run) (err : string) :
  originalMat w = Some src ->
  cv w = true ->
  transformPipeline w = before ++ step :: rest ->
  for_steps H before (start src) = (None, r1) ->
  step_body H step r1 = (Throw err, r2) ->
  let o := applyTransformPipeline H w in
  processed (images (state o)) = Some (matToDataUrl H (img (mat r1)))
  /\ alerts o = ["Error in operation '" +:+ name step +:+ "': " +:+ err]
  /\ (before <> [] ->
      processed (images (state o))
      = processed (images (state (applyTransformPipeline H
                                    (setTransformPipeline (fun _ => before) w)))))
  /\ (matToDataUrl H (img (mat r1)) <> EmptyString ->
      handleDownload (state o)
      = Some {| download := "processed-image.png";
                href := matToDataUrl H (img (mat r1)) |}).
Proof.
  intros Hsrc Hcv Hpl Hbefore Hstep o.
  pose proof (loop_stops_at_failure H before rest step (start src) r1 r2 err
                Hbefore Hstep) as Hloop.
  rewrite <- Hpl in Hloop.
  destruct (failed_run_publishes H w src step err r2 Hsrc Hcv Hloop) as (Hp & Ha & _).
  destruct (throw_keeps_mat H step r1 r2 err Hstep) as [Hmat _].
  fold o in Hp, Ha. rewrite Hmat in Hp.
  split; [exact Hp|]. split; [exact Ha|]. split.
  - intros Hne. rewrite Hp. unfold applyTransformPipeline.
    cbn [setTransformPipeline originalMat cv transformPipeline].
    rewrite Hsrc, Hcv. cbn [negb].
    destruct before as [|b0 before']; [now destruct Hne|].
    now rewrite Hbefore.
  - intros Hurl. unfold handleDownload. rewrite Hp.
    apply String.eqb_neq in Hurl. now rewrite Hurl.
Qed.

(** ** The bilateral filter's own error handling *)



(** ** Gray conversions *)

Lemma channels_maketype_4 (d : Z) :
  0 <= d < 8 -> Z.shiftr (Cv.CV_MAKETYPE d 4) 3 + 1 = 4.
Proof.
  intros Hd. unfold Cv.CV_MAKETYPE. change (Z.shiftl (4 - 1) 3) with 24.
  rewrite Z.shiftr_div_pow2 by lia. change (2 ^ 3) with 8.
  replace (d + 24) with (d + 3 * 8) by lia.
  rewrite Z.div_add by lia. rewrite Z.div_small by lia. reflexivity.
Qed.

Lemma depth_range (m : Mat) : 0 <= Cv.depth m < 8.
Proof.
  unfold Cv.depth.
  assert (Hl : Z.land (mat_type m) 7 = mat_type m mod 8)
    by exact (Z.land_ones (mat_type m) 3 ltac:(lia)).
  rewrite Hl. apply Z.mod_pos_bound. lia.
Qed.

Lemma depth_maketype_4 (d : Z) :
  0 <= d < 8 -> Z.land (Cv.CV_MAKETYPE d 4) 7 = d.
Proof.
  intros Hd. unfold Cv.CV_MAKETYPE. change (Z.shiftl (4 - 1) 3) with 24.
  assert (Hl : Z.land (d + 24) 7 = (d + 24) mod 8)
    by exact (Z.land_ones (d + 24) 3 ltac:(lia)).
  rewrite Hl. replace (d + 24) with (d + 3 * 8) by lia.
  rewrite Z.mod_add by lia. apply Z.mod_small. lia.
Qed.

Lemma gray_of_gray (H : Host) (px : list Z) :
  luma_neutral H ->
  gray H (let g := gray H px in [g; g; g; 255]) = gray H px.
Proof.
  intros Hn. cbv zeta. unfold gray at 1. cbn [nth].
  assert (Hg : 0 <= gray H px <= 255) by (unfold gray, Cv.saturate_u8; lia).
  rewrite (Hn _ Hg). unfold Cv.saturate_u8. lia.
Qed.

(** The gray conversion does not see a grayscale step before it. *)
Lemma gray_of_gray_image (H : Host) (m : Mat) :
  luma_neutral H ->
  Cv.channels m = 4 ->
  Cv.cvtColor_RGBA2GRAY (cv_luma H) (gray_image H m)
  = Cv.cvtColor_RGBA2GRAY (cv_luma H) m.
Proof.
  intros Hn Hch. unfold Cv.cvtColor_RGBA2GRAY. rewrite Hch.
  assert (Hch' : Cv.channels (gray_image H m) = 4).
  { unfold Cv.channels, gray_image. cbn [mat_type].
    apply channels_maketype_4, depth_range. }
  rewrite Hch'. cbn [Z.eqb Pos.eqb orb]. f_equal.
  unfold Cv.map_pixels, gray_image. cbn [rows cols data mat_type].
  unfold Cv.depth at 1. cbn [mat_type].
  rewrite (depth_maketype_4 _ (depth_range m)). f_equal.
  rewrite map_map. apply map_ext. intros row.
  rewrite map_map. apply map_ext. intros px.
  f_equal. exact (gray_of_gray H px Hn).
Qed.

Lemma grayscale_result (H : Host) (step : TransformStep) (r : Run) :
  type step = "grayscale" ->
  Cv.channels (img (mat r)) = 4 ->
  exists r1,
    step_body H step r = (Ok tt, r1)
    /\ mat r1 = {| handle := handle (mat r); img := gray_image H (img (mat r)) |}
    /\ matsToRelease r1 = matsToRelease r
    /\ logged r1 = logged r.
Proof.
  intros Ht Hch. unfold step_body. rewrite Ht. cbn [String.eqb Ascii.eqb Bool.eqb].
  unfold mbind, M_bind, new, get_mat, lift, write_mat, delete, with_objs.
  cbn -[Cv.cvtColor_RGBA2GRAY Cv.cvtColor_GRAY2RGBA release].
  unfold Cv.cvtColor_RGBA2GRAY. rewrite Hch. cbn [Z.eqb orb Pos.eqb].
  unfold Cv.cvtColor_GRAY2RGBA, Cv.channels.
  cbn [Cv.map_pixels mat_type rows cols data].
  rewrite depth_channels_1. cbn [Z.eqb Pos.eqb].
  eexists. split; [reflexivity|]. cbn [mat matsToRelease logged].
  repeat split. f_equal.
  unfold gray_image, Cv.map_pixels. cbn [rows cols mat_type data].
  unfold Cv.depth at 1. cbn [mat_type]. unfold Cv.depth.
  rewrite depth_maketype_1. f_equal.
  rewrite !map_map. apply map_ext. intros row.
  rewrite !map_map. apply map_ext. intros px. reflexivity.
Qed.

(** The image a gray-first step leaves depends on the buffer only through
    its gray conversion. *)
Lemma gray_first_reads_gray (H : Host) (step : TransformStep) (r r' : Run) :
  In (type step) gray_first ->
  Cv.cvtColor_RGBA2GRAY (cv_luma H) (img (mat r))
  = Cv.cvtColor_RGBA2GRAY (cv_luma H) (img (mat r')) ->
  after (step_body H step r) = after (step_body H step r').
Proof.
  intros Hin Hg. destruct r as [[h m] rel L lg], r' as [[h' m'] rel' L' lg'].
  cbn [mat img] in Hg.
  unfold step_body. cbn [In gray_first] in Hin.
  repeat (destruct Hin as [<- | Hin];
          [cbn [String.eqb Ascii.eqb Bool.eqb existsb orb];
           run_ops; rewrite Hg; step_cases; reflexivity|]).
  destruct Hin.
Qed.

(** X15.  A grayscale step on an RGBA buffer cannot fail: it leaves the gray
    value in the three colour channels over an opaque alpha, in the same
    object and with the size unchanged; and, the luminance of a gray pixel
    being its gray value, a second grayscale step changes nothing. *)
Theorem grayscale_step_is_idempotent (H : Host) (step : TransformStep) (r : Run) :
  type step = "grayscale" ->
  Cv.channels (img (mat r)) = 4 ->
  exists r1,
    step_body H step r = (Ok tt, r1)
    /\ mat r1 = {| handle := handle (mat r); img := gray_image H (img (mat r)) |}
    /\ (luma_neutral H -> after (step_body H step r1) = Some (img (mat r1))).
Proof.
  intros Ht Hch.
  destruct (grayscale_result H step r Ht Hch) as (r1 & Hstep & Hmat & _).
  exists r1. split; [exact Hstep|]. split; [exact Hmat|]. intros Hn.
  assert (Hsame : after (step_body H step r1) = after (step_body H step r)).
  { apply gray_first_reads_gray; [rewrite Ht; cbn; tauto|].
    rewrite Hmat. cbn [img]. now apply gray_of_gray_image. }
  rewrite Hsame, Hstep. reflexivity.
Qed.

(** X16.  Before a step that starts by converting the buffer to gray (sobel,
    laplacian, the three thresholds, grayscale itself) a grayscale step is
    redundant: the image the step leaves, or its failure, is the same with
    and without it. *)
Theorem grayscale_before_gray_first_is_redundant (H : Host)
    (g step : TransformStep) (r r1 : Run) :
  type g = "grayscale" ->
  In (type step) gray_first ->
  Cv.channels (img (mat r)) = 4 ->
  luma_neutral H ->
  step_body H g r = (Ok tt, r1) ->
  after (step_body H step r1) = after (step_body H step r).
Proof.
  intros Hg Hin Hch Hn Hstep.
  destruct (grayscale_result H g r Hg Hch) as (r1' & Hstep' & Hmat & _).
  rewrite Hstep in Hstep'. injection Hstep' as <-.
  apply gray_first_reads_gray; [exact Hin|].
  rewrite Hmat. cbn [img]. now apply gray_of_gray_image.
Qed.

(** X17.  A simple-threshold step on an RGBA buffer is idempotent: run again
    on its own result, with the same parameters, it changes nothing. *)
Theorem simple_thresh_is_idempotent (H : Host) (step : TransformStep) (r r1 : Run) :
  type step = "simple_thresh" ->
  Cv.channels (img (mat r)) = 4 ->
  luma_neutral H ->
  step_body H step r = (Ok tt, r1) ->
  after (step_body H step r1) = Some (img (mat r1)).
Proof.
  intros Ht Hch Hn Hstep.
  set (t := floorZ (or_else (num (params step) "threshold") 128)).
  pose proof (simple_thresh_effect H step r t Ht eq_refl Hch) as Hfirst.
  rewrite Hstep in Hfirst. cbn [after] in Hfirst. injection Hfirst as Himg.
  assert (Hch1 : Cv.channels (img (mat r1)) = 4).
  { rewrite Himg. unfold Cv.channels. cbn [mat_type].
    apply channels_maketype_4, depth_range. }
  rewrite (simple_thresh_effect H step r1 t Ht eq_refl Hch1).
  f_equal. rewrite Himg at 5. rewrite Himg. cbn [rows cols data mat_type].
  unfold Cv.depth at 1. cbn [mat_type].
  rewrite (depth_maketype_4 _ (depth_range (img (mat r)))). f_equal.
  rewrite map_map. apply map_ext. intros row.
  rewrite map_map. apply map_ext. intros px.
  assert (Hpx : 0 <= gray H px <= 255) by (unfold gray, Cv.saturate_u8; lia).
  destruct (Z.ltb_spec t (gray H px)) as [Hlt|Hge].
  - assert (Hw : gray H [255; 255; 255; 255] = 255).
    { unfold gray. cbn [nth]. rewrite (Hn 255) by lia. reflexivity. }
    rewrite Hw. destruct (Z.ltb_spec t 255); [reflexivity | lia].
  - assert (Hb : gray H [0; 0; 0; 255] = 0).
    { unfold gray. cbn [nth]. rewrite (Hn 0) by lia. reflexivity. }
    rewrite Hb. destruct (Z.ltb_spec t 0); [lia | reflexivity].
Qed.

(** ** The exported script *)

Lemma append_assoc (a b c : string) : (a +:+ b) +:+ c = a +:+ (b +:+ c).
Proof.
  induction a as [|x a IH]; [reflexivity|].
  change (String x ((a +:+ b) +:+ c) = String x (a +:+ (b +:+ c))). now f_equal.
Qed.

Lemma fold_append (blocks : list string) (init : string) :
  fold_left String.append blocks init
  = init +:+ fold_left String.append blocks EmptyString.
Proof.
  revert init. induction blocks as [|b blocks IH]; intros init; cbn [fold_left].
  - now rewrite append_empty_r.
  - rewrite IH. rewrite (IH (EmptyString +:+ b)).
    change (EmptyString +:+ b) with b. now rewrite append_assoc.
Qed.

(** The script of a pipeline that is not empty: the blocks of its steps
    between the prologue and the epilogue. *)
Lemma script_closed_form (H : Host) (p : list TransformStep) :
  p <> [] ->
  generatePythonCode H p
  = code_prologue
      +:+ fold_left String.append (imap (step_block H) p) EmptyString
      +:+ code_epilogue.
Proof.
  intros Hne. destruct p as [|s0 p]; [now destruct Hne|].
  unfold generatePythonCode. rewrite fold_append. now rewrite append_assoc.
Qed.

(** X18.  The empty pipeline exports the empty string, without prologue or
    epilogue; a non-empty pipeline exports its text between the prologue and
    the epilogue, and appending a step inserts that step's block, numbered
    one past the steps there are, in front of the epilogue and leaves the
    rest of the text as it was. *)
Theorem script_grows_by_block (H : Host) (p : list TransformStep) (step : TransformStep) :
  generatePythonCode H [] = EmptyString
  /\ generatePythonCode H [step]
     = code_prologue +:+ step_block H 0 step +:+ code_epilogue
  /\ (p <> [] ->
      exists body,
        generatePythonCode H p = code_prologue +:+ body +:+ code_epilogue
        /\ generatePythonCode H (p ++ [step])
           = code_prologue +:+ body +:+ step_block H (length p) step
               +:+ code_epilogue).
Proof.
  split; [reflexivity|]. split.
  - unfold generatePythonCode. cbn [imap fold_left]. now rewrite append_assoc.
  - intros Hne.
    exists (fold_left String.append (imap (step_block H) p) EmptyString).
    split; [now apply script_closed_form|].
    rewrite script_closed_form by (now destruct p).
    rewrite imap_app, fold_left_app. cbn [imap fold_left].
    rewrite Nat.add_0_r. now rewrite append_assoc.
Qed.

(** ** Counting the calls of [delete()] *)







(** ** What a failed run leaves live *)





(** ** The gamma table on every channel *)

Lemma map_nth_seq_any (px : list Z) (f : Z -> Z) :
  map (fun c => f (nth c px 0)) (seq 0 (length px)) = map f px.
Proof.
  apply list_eq. intros k. rewrite !list_lookup_fmap.
  destruct (px !! k) as [v|] eqn:Ek.
  - rewrite lookup_seq_lt by (now apply lookup_lt_Some in Ek).
    cbn. now rewrite nth_lookup, Ek.
  - rewrite lookup_seq_ge by (now apply lookup_ge_None in Ek). reflexivity.
Qed.

(** Splitting a valid 8-bit matrix, passing every plane through a table and
    merging is passing every value of every pixel through the table. *)
Lemma merge_LUT_split_lookup (table : list Z) (m : Mat) :
  valid_8u m ->
  Cv.merge (map (Cv.LUT table) (Cv.split m)) = Cv.LUT table m.
Proof.
  intros [Ht Hpx]. unfold Cv.split. rewrite map_map.
  assert (Hch : 1 <= Cv.channels m).
  { unfold Cv.channels. pose proof (Z.shiftr_nonneg (mat_type m) 3). lia. }
  destruct (Z.to_nat (Cv.channels m)) as [|n] eqn:En; [lia|].
  set (plane := fun x : nat =>
         Cv.LUT table (Cv.map_pixels (fun px => [nth x px 0])
                                     (Cv.CV_MAKETYPE (Cv.depth m) 1) m)).
  remember (map plane (seq 0 (S n))) as planes eqn:Hpl.
  assert (Hp0 : hd Cv.empty planes = plane 0%nat) by (subst planes; reflexivity).
  destruct planes as [|p0 ps]; [discriminate Hpl|].
  cbn [hd] in Hp0. subst p0. unfold Cv.merge. rewrite Hpl.
  rewrite length_map, length_seq. clear Hpl ps. subst plane.
  unfold Cv.LUT, Cv.map_pixels, Cv.depth.
  cbn [rows cols mat_type data].
  destruct m as [r c t d]. cbn [rows cols mat_type data] in *.
  f_equal.
  - rewrite depth_maketype_1. unfold Cv.CV_MAKETYPE, Cv.channels in *.
    cbn [mat_type] in *.
    replace (Z.of_nat (S n) - 1) with (Z.shiftr t 3) by lia.
    apply type_code_parts.
  - apply list_eq. intros i.
    rewrite list_lookup_imap, !list_lookup_fmap.
    destruct (d !! i) as [row|] eqn:Ei; [|reflexivity].
    cbn [fmap option_fmap option_map].
    f_equal. apply list_eq. intros j.
    rewrite list_lookup_imap, !list_lookup_fmap.
    destruct (row !! j) as [px|] eqn:Ej; [|reflexivity].
    cbn [fmap option_fmap option_map].
    f_equal.
    pose proof (proj1 (Forall_lookup _ _) Hpx i row Ei) as Hrow.
    pose proof (proj1 (Forall_lookup _ _) Hrow j px Ej) as [Hlen Hbytes].
    rewrite map_map.
    rewrite <- Hlen.
    etransitivity;
      [|apply (map_nth_seq_any px (fun v => nth (Z.to_nat v) table 0))].
    apply map_ext. intros ch. cbn [data].
    rewrite (nth_lookup _ i), !list_lookup_fmap, Ei. cbn.
    rewrite (nth_lookup _ j), !list_lookup_fmap, Ej. reflexivity.
Qed.

Lemma gamma_lut_bytes (H : Host) (gamma : Number) (v : Z) :
  0 <= nth (Z.to_nat v) (gamma_lut H gamma) 0 <= 255.
Proof.
  destruct (Nat.lt_ge_cases (Z.to_nat v) 256) as [Hlt|Hge].
  - rewrite gamma_lut_nth by exact Hlt. unfold ToUint8.
    pose proof (Z.mod_pos_bound
                  (truncZ (Math_pow (pow_approx H)
                             (of_Z (Z.of_nat (Z.to_nat v)) / 255) gamma * 255))
                  256 ltac:(lia)).
    lia.
  - rewrite nth_overflow; [lia|]. unfold gamma_lut.
    now rewrite length_map, length_seq.
Qed.

(** X21.  On a valid 8-bit buffer a gamma step replaces every value of every
    pixel by its entry in the table, the alpha channel included; whatever
    the exponent, the result has the size and type of the buffer and is a
    valid 8-bit buffer again. *)
Theorem gamma_step_maps_every_channel (H : Host) (step : TransformStep) (r : Run) :
  type step = "gamma" ->
  valid_8u (img (mat r)) ->
  let table := gamma_lut H (nullish (num (params step) "gamma") 1) in
  let m := img (mat r) in
  let result :=
    {| rows := rows m; cols := cols m; mat_type := mat_type m;
       data := map (map (map (fun v => nth (Z.to_nat v) table 0))) (data m) |} in
  after (step_body H step r) = Some result
  /\ valid_8u result.
Proof.
  intros Ht Hvalid table m result. split.
  - assert (Hstep : after (step_body H step r)
                    = Some (Cv.merge (map (Cv.LUT table) (Cv.split m)))).
    { unfold step_body. rewrite Ht. reflexivity. }
    rewrite Hstep. f_equal. now rewrite (merge_LUT_split_lookup table m Hvalid).
  - destruct Hvalid as [Hty Hpx]. fold m in Hty, Hpx. split; [exact Hty|].
    cbn [data]. unfold Cv.channels in *. cbn [mat_type].
    rewrite List.Forall_forall in *. intros row' Hrow'.
    apply in_map_iff in Hrow' as (row & <- & Hrow).
    specialize (Hpx row Hrow). rewrite List.Forall_forall in *.
    intros px' Hpx'. apply in_map_iff in Hpx' as (px & <- & Hin).
    destruct (Hpx px Hin) as [Hlen _]. split; [now rewrite length_map|].
    rewrite List.Forall_forall. intros v' Hv'.
    apply in_map_iff in Hv' as (v & <- & _). apply gamma_lut_bytes.
Qed.

(** ** Loading the library *)

Lemma fire_keeps_inv (t : UseOpenCv.Tick) (h : UseOpenCv.Hook) :
  hook_inv h -> hook_inv (UseOpenCv.fire t h).
Proof.
  destruct h as [rdy err c ref tm ft]. unfold hook_inv. cbn.
  intros (-> & -> & Htm & Herr).
  destruct t as [[|]| |]; cbn; destruct tm, ft, rdy; cbn;
    repeat split; auto; try discriminate;
    try (destruct Herr as [->|[-> ?]]; auto; discriminate).
Qed.

Lemma after_ticks_inv (available : bool) (ts : list UseOpenCv.Tick) :
  hook_inv (UseOpenCv.after_ticks available ts).
Proof.
  unfold UseOpenCv.after_ticks.
  assert (H0 : hook_inv (UseOpenCv.mount available))
    by (destruct available; cbn; unfold hook_inv; cbn; repeat split; auto; discriminate).
  revert H0. generalize (UseOpenCv.mount available).
  induction ts as [|t ts IH]; intros h Hh; [exact Hh|].
  cbn [fold_left]. apply IH. now apply fire_keeps_inv.
Qed.

Lemma after_ticks_app (available : bool) (ts ts' : list UseOpenCv.Tick) :
  UseOpenCv.after_ticks available (ts ++ ts')
  = fold_left (fun h t => UseOpenCv.fire t h) ts' (UseOpenCv.after_ticks available ts).
Proof. unfold UseOpenCv.after_ticks. apply fold_left_app. Qed.

(** X22.  Once the hook reports the library ready it stays ready, whatever
    timers fire later; the library object is then there and [checkReady] no
    longer polls.  An error, once set, is never cleared, not even when the
    library becomes ready afterwards; and a hook that is ready without an
    error never gets one. *)
Theorem hook_ready_and_error_are_final (available : bool)
    (ts ts' : list UseOpenCv.Tick) :
  let h := UseOpenCv.after_ticks available ts in
  let h' := UseOpenCv.after_ticks available (ts ++ ts') in
  (UseOpenCv.isReady h = true ->
     UseOpenCv.isReady h' = true
     /\ UseOpenCv.cv h' = true
     /\ UseOpenCv.timeout h' = false
     /\ UseOpenCv.error h' = UseOpenCv.error h)
  /\ (forall message, UseOpenCv.error h = Some message ->
        UseOpenCv.error h' = Some message).
Proof.
  cbv zeta. rewrite after_ticks_app.
  pose proof (after_ticks_inv available ts) as Hinv.
  revert Hinv. generalize (UseOpenCv.after_ticks available ts).
  induction ts' as [|t ts' IH]; intros h Hinv; cbn [fold_left].
  - destruct Hinv as (_ & Hcv & Htm & _). split; [|auto].
    intros Hr. rewrite Hcv. auto.
  - pose proof (fire_keeps_inv t h Hinv) as Hinv'.
    destruct (IH _ Hinv') as [IHr IHe]. split.
    + intros Hr.
      assert (Hstep : UseOpenCv.isReady (UseOpenCv.fire t h) = true
                      /\ UseOpenCv.error (UseOpenCv.fire t h) = UseOpenCv.error h).
      { destruct Hinv as (Href & _ & Htm & _). specialize (Htm Hr).
        destruct h as [rdy err c ref tm ft]. cbn in *. subst.
        destruct t as [[|]| |]; cbn; destruct ft; cbn; auto. }
      destruct Hstep as [Hr' He']. destruct (IHr Hr') as (? & ? & ? & ->).
      now rewrite He'.
    + intros message He. apply IHe.
      destruct Hinv as (_ & _ & _ & Herr).
      destruct Herr as [Hnone | [_ Hft]]; [congruence|].
      destruct h as [rdy err c ref tm ft]. cbn in *. subst.
      destruct t as [[|]| |]; cbn; destruct tm; cbn; auto.
Qed.

(** X23.  While the library is not there the page shows "Loading OpenCV.js..."
    and nothing else, also after the failure timer has fired: the failure
    text is shown only once the library is ready, which then was too late to
    clear the error.  Whenever the page shows the controls, the library
    object is there and no error is set. *)
Theorem page_shows_failure_only_when_loaded (available : bool)
    (ts : list UseOpenCv.Tick) :
  let h := UseOpenCv.after_ticks available ts in
  (available = false ->
   Forall (fun t => t <> UseOpenCv.Poll true) ts ->
   rendered h = LoadingOpenCv)
  /\ (forall message, rendered h = ErrorText message ->
        message = "Failed to load OpenCV.js" /\ UseOpenCv.cv h = true)
  /\ (rendered h = Controls ->
        UseOpenCv.cv h = true /\ UseOpenCv.error h = None).
Proof.
  cbv zeta. split; [|split].
  - intros -> Hts. unfold rendered.
    assert (Hnot : UseOpenCv.isReady (UseOpenCv.after_ticks false ts) = false);
      [|now rewrite Hnot].
    unfold UseOpenCv.after_ticks.
    assert (H0 : UseOpenCv.isReady (UseOpenCv.mount false) = false) by reflexivity.
    revert H0. generalize (UseOpenCv.mount false).
    induction Hts as [|t ts Ht _ IH]; intros h Hh; [exact Hh|].
    cbn [fold_left]. apply IH.
    destruct h as [rdy err c ref tm ft]. cbn in *. subst.
    destruct t as [[|]| |]; cbn; [now destruct Ht| | |];
      try destruct tm; try destruct ft; reflexivity.
  - intros message. unfold rendered.
    destruct (after_ticks_inv available ts) as (_ & Hcv & _ & Herr).
    rewrite Hcv.
    destruct (UseOpenCv.isReady (UseOpenCv.after_ticks available ts));
      cbn [negb]; [|discriminate].
    destruct Herr as [-> | [-> _]]; [discriminate|].
    cbn [String.eqb Ascii.eqb Bool.eqb]. intros E. injection E as <-. now split.
  - unfold rendered.
    destruct (after_ticks_inv available ts) as (_ & Hcv & _ & Herr).
    rewrite Hcv.
    destruct (UseOpenCv.isReady (UseOpenCv.after_ticks available ts));
      cbn [negb]; [|discriminate].
    destruct Herr as [-> | [-> _]]; [now split|].
    cbn [String.eqb Ascii.eqb Bool.eqb]. discriminate.
Qed.

(** ** The explanation shown in the panel *)

Lemma find_first {A} (f : A -> bool) (pre post : list A) (x : A) :
  Forall (fun y => f y = false) pre -> f x = true ->
  List.find f (pre ++ x :: post) = Some x.
Proof.
  intros Hpre Hx. induction Hpre as [|y pre Hy _ IH]; cbn [List.find app].
  - now rewrite Hx.
  - now rewrite Hy.
Qed.

Lemma find_none {A} (f : A -> bool) (l : list A) :
  Forall (fun y => f y = false) l -> List.find f l = None.
Proof.
  induction 1 as [|y l Hy _ IH]; cbn [List.find]; [reflexivity|]. now rewrite Hy.
Qed.

(** X24.  The panel explains the first step of the pipeline that carries the
    selected identifier; when no step carries it (nothing selected yet, or
    the selected step removed) it explains the first step of the pipeline;
    for the empty pipeline there is no explanation. *)
Theorem explanation_of_selected_or_first (pipeline : list TransformStep)
    (selectedPipelineStep : string) :
  getMathematicalExplanation [] selectedPipelineStep = None
  /\ (forall pre step post,
        pipeline = pre ++ step :: post ->
        Forall (fun s => id s <> selectedPipelineStep) pre ->
        id step = selectedPipelineStep ->
        getMathematicalExplanation pipeline selectedPipelineStep
        = explanation_of (type step))
  /\ (forall first rest,
        pipeline = first :: rest ->
        Forall (fun s => id s <> selectedPipelineStep) pipeline ->
        getMathematicalExplanation pipeline selectedPipelineStep
        = explanation_of (type first)).
Proof.
  split; [reflexivity|]. split.
  - intros pre step post -> Hpre Hid. unfold getMathematicalExplanation.
    rewrite (find_first _ pre post step (other_id _ _ Hpre))
      by (now apply String.eqb_eq).
    now destruct (pre ++ step :: post) eqn:E; [destruct pre; discriminate E|].
  - intros first rest -> Hall. unfold getMathematicalExplanation.
    now rewrite (find_none _ _ (other_id _ _ Hall)).
Qed.

(** X25.  In every session, a step of the pipeline has no explanation exactly
    when its operation is one of the nineteen the table lacks, among them
    operations the executor implements (resize, crop, flip, rotate, the
    colour spaces, brightness, contrast, gamma, histogram equalization); no
    step's type is an inherited member of the table. *)
Theorem session_steps_without_explanation (H : Host) (w : Workbench)
    (step : TransformStep) :
  reachable H w ->
  In step (transformPipeline w) ->
  (explanation_of (type step) = None
   <-> In (type step)
          ["resize"; "crop"; "flip"; "rotate"; "hsv"; "lab"; "ycrcb"; "hed"; "cmyk";
           "brightness"; "contrast"; "gamma"; "hist_eq"; "nl_means";
           "perspective"; "affine"; "add_weighted"; "find_contours";
           "feature_detect"])
  /\ (forall key, explanation_of (type step) <> Some (Inherited key)).
Proof.
  intros Hw Hin. destruct (reachable_inv H w Hw) as (_ & Hcat & _).
  rewrite List.Forall_forall in Hcat.
  destruct (Hcat step Hin) as (_ & cat & o & Hc & Ho & Ht & _).
  assert (Hval : In (type step)
                   (map (fun p => fst p)
                      (flat_map (fun cat => map (fun o => (value o, label o))
                                              (operations cat))
                                TRANSFORM_CATEGORIES))).
  { apply in_map_iff. exists (value o, label o). split; [now rewrite Ht|].
    apply in_flat_map. exists cat. split; [exact Hc|].
    apply in_map_iff. now exists o. }
  rewrite catalog_values in Hval. cbn [In] in Hval.
  repeat (destruct Hval as [<- | Hval];
          [split;
           [split;
            [first [ discriminate
                   | intros _; cbn [In]; repeat (first [left; reflexivity | right]) ]
            | first [ reflexivity
                    | intros Hf; cbn [In] in Hf;
                      repeat (destruct Hf as [Hf|Hf]; [discriminate Hf|]);
                      destruct Hf ]]
           | intros key; discriminate ]|]).
  destruct Hval.
Qed.

(** ** The properties on examples *)

Lemma session_reachable (H : Host) (es : list Event) (w w' : Workbench) :
  reachable H w -> session H es w = Some w' -> reachable H w'.
Proof.
  revert w. induction es as [|e es IH]; intros w Hw; cbn [session].
  - intros E. now injection E as <-.
  - destruct (offered e w) eqn:Hoff; [|discriminate].
    apply IH. now apply reach_event.
Qed.

Lemma tour_reachable : reachable Example.sound Tour.visited.
Proof.
  apply (session_reachable Example.sound Tour.events initial);
    [apply reach_initial | by vm_compute].
Qed.

Lemma sound_luma_neutral : luma_neutral Example.sound.
Proof.
  intros v Hv. cbn [cv_luma Example.sound Example.host].
  rewrite Z.shiftr_div_pow2 by lia. symmetry.
  apply (Z.div_unique _ _ v 8192); lia.
Qed.

Lemma move_swaps_neighbours_witness :
  transformPipeline (moveTransformInPipeline "f5g6h7i8j" down Tour.visited)
  = [Tour.step "a1b2c3d4e" "gamma" "Gamma Correction";
     Tour.step "k9l0m1n2o" "crop" "Crop";
     Tour.step "f5g6h7i8j" "contrast" "Contrast Adjustment"]
  /\ transformPipeline (moveTransformInPipeline "f5g6h7i8j" up Tour.visited)
     = [Tour.step "f5g6h7i8j" "contrast" "Contrast Adjustment";
        Tour.step "a1b2c3d4e" "gamma" "Gamma Correction";
        Tour.step "k9l0m1n2o" "crop" "Crop"].
Proof.
  split.
  - refine (proj1 (move_swaps_neighbours "f5g6h7i8j" Tour.visited
                     [Tour.step "a1b2c3d4e" "gamma" "Gamma Correction"] []
                     (Tour.step "f5g6h7i8j" "contrast" "Contrast Adjustment")
                     (Tour.step "k9l0m1n2o" "crop" "Crop") eq_refl _) eq_refl).
    repeat constructor. discriminate.
  - refine (proj2 (move_swaps_neighbours "f5g6h7i8j" Tour.visited
                     [] [Tour.step "k9l0m1n2o" "crop" "Crop"]
                     (Tour.step "a1b2c3d4e" "gamma" "Gamma Correction")
                     (Tour.step "f5g6h7i8j" "contrast" "Contrast Adjustment")
                     eq_refl (List.Forall_nil _)) _ eq_refl).
    discriminate.
Defined.

Lemma move_out_of_range_is_noop_witness :
  moveTransformInPipeline "a1b2c3d4e" up Tour.visited = Tour.visited
  /\ moveTransformInPipeline "k9l0m1n2o" down Tour.visited = Tour.visited
  /\ moveTransformInPipeline "nosuchid0" down Tour.visited = Tour.visited.
Proof.
  destruct (move_out_of_range_is_noop "a1b2c3d4e" Tour.visited) as (_ & Hfirst & _).
  destruct (move_out_of_range_is_noop "k9l0m1n2o" Tour.visited) as (_ & _ & Hlast).
  destruct (move_out_of_range_is_noop "nosuchid0" Tour.visited) as (Hnone & _).
  split; [|split].
  - exact (Hfirst _ _ eq_refl eq_refl).
  - refine (Hlast [Tour.step "a1b2c3d4e" "gamma" "Gamma Correction";
                   Tour.step "f5g6h7i8j" "contrast" "Contrast Adjustment"]
                  (Tour.step "k9l0m1n2o" "crop" "Crop") eq_refl _ eq_refl).
    repeat constructor; discriminate.
  - apply Hnone. repeat constructor; discriminate.
Defined.

Lemma move_there_and_back_witness :
  moveTransformInPipeline "f5g6h7i8j" down
    (moveTransformInPipeline "f5g6h7i8j" up Tour.visited) = Tour.visited
  /\ moveTransformInPipeline "f5g6h7i8j" up
       (moveTransformInPipeline "f5g6h7i8j" down Tour.visited) = Tour.visited.
Proof.
  split.
  - refine (proj1 (move_there_and_back "f5g6h7i8j" Tour.visited
                     [] [Tour.step "k9l0m1n2o" "crop" "Crop"]
                     (Tour.step "a1b2c3d4e" "gamma" "Gamma Correction")
                     (Tour.step "f5g6h7i8j" "contrast" "Contrast Adjustment")
                     eq_refl (List.Forall_nil _)) _ eq_refl).
    discriminate.
  - refine (proj2 (move_there_and_back "f5g6h7i8j" Tour.visited
                     [Tour.step "a1b2c3d4e" "gamma" "Gamma Correction"] []
                     (Tour.step "f5g6h7i8j" "contrast" "Contrast Adjustment")
                     (Tour.step "k9l0m1n2o" "crop" "Crop") eq_refl _) eq_refl _).
    + repeat constructor. discriminate.
    + discriminate.
Defined.

Lemma session_steps_from_catalog_witness :
  session Example.sound Tour.events initial = Some Tour.visited
  /\ transformParams Tour.visited !! "cropX" = Some (VNum 10)
  /\ params (Tour.step "f5g6h7i8j" "contrast" "Contrast Adjustment") = DEFAULT_PARAMS
  /\ In ("contrast", "Contrast Adjustment")
        (flat_map (fun cat => map (fun o => (value o, label o)) (operations cat))
                  TRANSFORM_CATEGORIES).
Proof.
  split; [by vm_compute|]. split; [by vm_compute|].
  apply (session_steps_from_catalog Example.sound Tour.visited
           (Tour.step "f5g6h7i8j" "contrast" "Contrast Adjustment") tour_reachable).
  cbn. tauto.
Defined.



Lemma session_gamma_step_is_identity_witness :
  after (step_body Example.sound (Tour.step "a1b2c3d4e" "gamma" "Gamma Correction")
           (start Example.img2))
  = Some Example.img2.
Proof.
  apply (session_gamma_step_is_identity Example.sound Tour.visited
           (Tour.step "a1b2c3d4e" "gamma" "Gamma Correction") (start Example.img2)
           tour_reachable).
  - cbn. tauto.
  - reflexivity.
  - exact valid_8u_img2.
Defined.

Lemma session_script_code_witness :
  step_code Example.sound (Tour.step "a1b2c3d4e" "gamma" "Gamma Correction")
  = EmptyString
  /\ step_code Example.sound (Tour.step "k9l0m1n2o" "crop" "Crop") <> EmptyString.
Proof.
  split.
  - apply (session_script_code Example.sound Tour.visited
             (Tour.step "a1b2c3d4e" "gamma" "Gamma Correction") tour_reachable).
    + cbn. tauto.
    + cbn. intros Hf. repeat (destruct Hf as [Hf|Hf]; [discriminate Hf|]). exact Hf.
  - intros E.
    apply (session_script_code Example.sound Tour.visited
             (Tour.step "k9l0m1n2o" "crop" "Crop") tour_reachable) in E.
    + apply E. cbn. tauto.
    + cbn. tauto.
Defined.

Lemma append_then_remove_witness :
  currentOperation (Example.workbench [])
  = Some (op "simple_thresh" "Simple Threshold" ["threshold"])
  /\ removeTransformFromPipeline "q1w2e3r4t"
       (onClickAddToPipeline "q1w2e3r4t" (Example.workbench []))
     = setSelectedOperation EmptyString (Example.workbench []).
Proof.
  split; [reflexivity|].
  exact (append_then_remove "q1w2e3r4t" (Example.workbench [])
           (op "simple_thresh" "Simple Threshold" ["threshold"])
           eq_refl (List.Forall_nil _)).
Defined.

Lemma operation_choice_sets_controls_witness :
  transformParams (onOperationChange "flip" Tour.visited) !! "flipDirection"
  = Some (VNum 0)
  /\ transformParams (onOperationChange "flip" Tour.visited) !! "cropX" = None
  /\ transformParams (onOperationChange "gamma" Tour.visited)
     = transformParams Tour.visited.
Proof.
  destruct (operation_choice_sets_controls "flip" Tour.visited) as (_ & Hset & _).
  destruct (operation_choice_sets_controls "gamma" Tour.visited) as (_ & _ & Hkeep).
  split; [|split].
  - exact (Hset _ (op "flip" "Flip" ["flipDirection"]) "flipDirection"
             eq_refl eq_refl).
  - exact (Hset _ (op "flip" "Flip" ["flipDirection"]) "cropX" eq_refl eq_refl).
  - apply Hkeep. intros cat Hcat. injection Hcat as <-. reflexivity.
Defined.

Lemma failed_run_shows_prefix_result_witness :
  let gray_step := Example.step "grayscale" "Grayscale" DEFAULT_PARAMS in
  let crop_out := Example.step "crop" "Crop" (<["cropX" := VNum 100]> DEFAULT_PARAMS) in
  let flip_step := Example.step "flip" "Flip" DEFAULT_PARAMS in
  let o := applyTransformPipeline Example.sound
             (Example.workbench [gray_step; crop_out; flip_step]) in
  processed (images (state o))
  = Some "2x2:0,0,0,255,200,200,200,255,76,76,76,255,18,18,18,255"
  /\ processed (images (state o))
     = processed (images (state (applyTransformPipeline Example.sound
                                   (Example.workbench [gray_step]))))
  /\ handleDownload (state o)
     = Some {| download := "processed-image.png";
               href := "2x2:0,0,0,255,200,200,200,255,76,76,76,255,18,18,18,255" |}.
Proof.
  cbv zeta.
  pose (gray_step := Example.step "grayscale" "Grayscale" DEFAULT_PARAMS).
  pose (crop_out := Example.step "crop" "Crop" (<["cropX" := VNum 100]> DEFAULT_PARAMS)).
  pose (flip_step := Example.step "flip" "Flip" DEFAULT_PARAMS).
  pose (r1 := snd (for_steps Example.sound [gray_step] (start Example.img2))).
  pose (r2 := snd (step_body Example.sound crop_out r1)).
  destruct (failed_run_shows_prefix_result Example.sound
              (Example.workbench [gray_step; crop_out; flip_step]) Example.img2
              [gray_step] [flip_step] crop_out r1 r2
              "roi: rectangle outside the matrix"
              eq_refl eq_refl eq_refl)
    as (Hp & _ & Hsame & Hdl); [by vm_compute | by vm_compute |].
  split; [exact Hp|]. split; [apply Hsame; discriminate|].
  apply Hdl. discriminate.
Defined.


Lemma grayscale_step_is_idempotent_witness :
  let step := Example.step "grayscale" "Grayscale" DEFAULT_PARAMS in
  exists r1,
    step_body Example.sound step (start Example.img2) = (Ok tt, r1)
    /\ data (img (mat r1))
       = [[[0; 0; 0; 255]; [200; 200; 200; 255]];
          [[76; 76; 76; 255]; [18; 18; 18; 255]]]
    /\ after (step_body Example.sound step r1) = Some (img (mat r1)).
Proof.
  cbv zeta.
  destruct (grayscale_step_is_idempotent Example.sound
              (Example.step "grayscale" "Grayscale" DEFAULT_PARAMS)
              (start Example.img2) eq_refl eq_refl) as (r1 & Hstep & Hmat & Hidem).
  exists r1. split; [exact Hstep|]. split.
  - rewrite Hmat. reflexivity.
  - exact (Hidem sound_luma_neutral).
Defined.

Lemma grayscale_before_gray_first_is_redundant_witness :
  let g := Example.step "grayscale" "Grayscale" DEFAULT_PARAMS in
  let s := Example.step "sobel" "Sobel Edge" DEFAULT_PARAMS in
  let r1 := snd (step_body Example.sound g (start Example.img2)) in
  after (step_body Example.sound s r1)
  = after (step_body Example.sound s (start Example.img2)).
Proof.
  cbv zeta.
  apply (grayscale_before_gray_first_is_redundant Example.sound
           (Example.step "grayscale" "Grayscale" DEFAULT_PARAMS)
           (Example.step "sobel" "Sobel Edge" DEFAULT_PARAMS)
           (start Example.img2)).
  - reflexivity.
  - cbn. tauto.
  - reflexivity.
  - exact sound_luma_neutral.
  - by vm_compute.
Defined.

Lemma simple_thresh_is_idempotent_witness :
  let s := Example.step "simple_thresh" "Simple Threshold" DEFAULT_PARAMS in
  let r1 := snd (step_body Example.sound s (start Example.img2)) in
  data (img (mat r1))
  = [[[0; 0; 0; 255]; [255; 255; 255; 255]]; [[0; 0; 0; 255]; [0; 0; 0; 255]]]
  /\ after (step_body Example.sound s r1) = Some (img (mat r1)).
Proof.
  cbv zeta. split; [by vm_compute|].
  apply (simple_thresh_is_idempotent Example.sound
           (Example.step "simple_thresh" "Simple Threshold" DEFAULT_PARAMS)
           (start Example.img2)).
  - reflexivity.
  - reflexivity.
  - exact sound_luma_neutral.
  - by vm_compute.
Defined.

Lemma script_grows_by_block_witness :
  exists body,
    generatePythonCode Example.sound Tour.pipeline
    = code_prologue +:+ body +:+ code_epilogue
    /\ generatePythonCode Example.sound
         (Tour.pipeline ++ [Tour.step "p3q4r5s6t" "flip" "Flip"])
       = code_prologue +:+ body
           +:+ (nl +:+ "# Step 4: Flip" +:+ nl)
           +:+ code_epilogue.
Proof.
  destruct (script_grows_by_block Example.sound Tour.pipeline
              (Tour.step "p3q4r5s6t" "flip" "Flip")) as (_ & _ & Hgrow).
  destruct (Hgrow ltac:(discriminate)) as (body & Hp & Hps).
  exists body. split; [exact Hp|]. exact Hps.
Defined.


Lemma hook_ready_and_error_are_final_witness :
  let late := UseOpenCv.after_ticks false
                [UseOpenCv.Poll false; UseOpenCv.Fail; UseOpenCv.Poll true] in
  UseOpenCv.isReady late = true
  /\ UseOpenCv.error late = Some "Failed to load OpenCV.js"
  /\ UseOpenCv.error
       (UseOpenCv.after_ticks false
          ([UseOpenCv.Poll false; UseOpenCv.Fail; UseOpenCv.Poll true]
             ++ [UseOpenCv.Poll true; UseOpenCv.Fail]))
     = Some "Failed to load OpenCV.js".
Proof.
  cbv zeta. split; [reflexivity|]. split; [reflexivity|].
  exact (proj2 (hook_ready_and_error_are_final false
                  [UseOpenCv.Poll false; UseOpenCv.Fail; UseOpenCv.Poll true]
                  [UseOpenCv.Poll true; UseOpenCv.Fail])
               "Failed to load OpenCV.js" eq_refl).
Defined.

Lemma page_shows_failure_only_when_loaded_witness :
  rendered (UseOpenCv.after_ticks false
              [UseOpenCv.Poll false; UseOpenCv.Fail; UseOpenCv.Poll false])
  = LoadingOpenCv
  /\ rendered (UseOpenCv.after_ticks false
                 [UseOpenCv.Poll false; UseOpenCv.Fail; UseOpenCv.Poll true])
     = ErrorText "Failed to load OpenCV.js"
  /\ UseOpenCv.cv (UseOpenCv.after_ticks false
                     [UseOpenCv.Poll false; UseOpenCv.Fail; UseOpenCv.Poll true])
     = true.
Proof.
  split; [|split; [reflexivity|]].
  - destruct (page_shows_failure_only_when_loaded false
                [UseOpenCv.Poll false; UseOpenCv.Fail; UseOpenCv.Poll false])
      as (Hloading & _).
    apply Hloading; [reflexivity|]. repeat constructor; discriminate.
  - destruct (page_shows_failure_only_when_loaded false
                [UseOpenCv.Poll false; UseOpenCv.Fail; UseOpenCv.Poll true])
      as (_ & Hfail & _).
    exact (proj2 (Hfail "Failed to load OpenCV.js" eq_refl)).
Defined.


Lemma gamma_step_maps_every_channel_witness :
  let step := Example.step "gamma" "Gamma Correction"
                (<["gamma" := VNum 0]> DEFAULT_PARAMS) in
  after (step_body Example.sound step (start Example.img2))
  = Some {| rows := 2; cols := 2; mat_type := Cv.CV_8UC4;
            data := [[[255; 255; 255; 255]; [255; 255; 255; 255]];
                     [[255; 255; 255; 255]; [255; 255; 255; 255]]] |}.
Proof.
  cbv zeta.
  destruct (gamma_step_maps_every_channel Example.sound
              (Example.step "gamma" "Gamma Correction"
                 (<["gamma" := VNum 0]> DEFAULT_PARAMS))
              (start Example.img2) eq_refl valid_8u_img2) as [Hafter _].
  rewrite Hafter. by vm_compute.
Defined.

Lemma explanation_of_selected_or_first_witness :
  let pipeline := [Tour.step "u7v8w9x0y" "sobel" "Sobel Edge";
                   Tour.step "a1b2c3d4e" "gamma" "Gamma Correction"] in
  getMathematicalExplanation pipeline "a1b2c3d4e" = None
  /\ getMathematicalExplanation pipeline "removed00" = explanation_of "sobel"
  /\ option_map (fun m => match m with
                          | Entry e => title e
                          | Inherited key => key
                          end) (explanation_of "sobel")
     = Some "Sobel Edge Detection".
Proof.
  cbv zeta.
  destruct (explanation_of_selected_or_first
              [Tour.step "u7v8w9x0y" "sobel" "Sobel Edge";
               Tour.step "a1b2c3d4e" "gamma" "Gamma Correction"] "a1b2c3d4e")
    as (_ & Hsel & _).
  destruct (explanation_of_selected_or_first
              [Tour.step "u7v8w9x0y" "sobel" "Sobel Edge";
               Tour.step "a1b2c3d4e" "gamma" "Gamma Correction"] "removed00")
    as (_ & _ & Hfirst).
  split; [|split; [|reflexivity]].
  - refine (Hsel [Tour.step "u7v8w9x0y" "sobel" "Sobel Edge"]
                 (Tour.step "a1b2c3d4e" "gamma" "Gamma Correction") []
                 eq_refl _ eq_refl).
    repeat constructor. discriminate.
  - refine (Hfirst _ _ eq_refl _). repeat constructor; discriminate.
Defined.

Lemma session_steps_without_explanation_witness :
  explanation_of "gamma" = None
  /\ getMathematicalExplanation Tour.pipeline EmptyString = None.
Proof.
  split; [|reflexivity].
  apply (session_steps_without_explanation Example.sound Tour.visited
           (Tour.step "a1b2c3d4e" "gamma" "Gamma Correction") tour_reachable).
  - cbn. tauto.
  - cbn. tauto.
Defined.
